(** * Blob log format and sequential reader

    A shallow embedding of [utilities/blob_db/blob_log_format.h] and of the
    blob log reader ([Reader::ReadHeader], [Reader::ReadRecord]).

    Integers are [Z] with their wrap-around written out, bytes are
    [Byte.byte], fixed-width little-endian coding is coqutil's
    [le_split]/[le_combine].  A pointer into a buffer is modelled by the
    memory visible from it onwards. *)

From Stdlib Require Import ZArith List Lia Bool.
From coqutil Require Import Byte Word.LittleEndianList.
Import ListNotations.
Local Open Scope Z_scope.

(** ** Machine integers *)

Definition wrap32 (z : Z) : Z := z mod 2 ^ 32.
Definition wrap64 (z : Z) : Z := z mod 2 ^ 64.

(** ** Status *)

(** Modelled from the spec: [rocksdb/status.h] is outside these sources; the
    variants are the error taxonomy of the spec (section 7) next to [OK]. *)
Inductive Status : Type :=
| OK
| EndOfLog
| IoError
| MalformedHeader
| MalformedFooter
| HeaderChecksumMismatch
| PayloadChecksumMismatch
| UnknownRecordType
| UnknownSubtype.

Definition ok (s : Status) : bool :=
  match s with OK => true | _ => false end.

(** ** util/coding.h: fixed-width little-endian integers *)

Module coding.

(** Modelled from the spec: [util/coding.h] is outside these sources; the
    codec writes and reads fixed-width unsigned integers in one byte order
    (little-endian).  The decoders read from a pointer: they take the memory
    visible from that pointer and use its first 4 (8) bytes, whatever the
    length of the slice the pointer came from. *)
Definition EncodeFixed32 (v : Z) : list byte := le_split 4 v.
Definition EncodeFixed64 (v : Z) : list byte := le_split 8 v.
Definition DecodeFixed32 (p : list byte) : Z := le_combine (firstn 4 p).
Definition DecodeFixed64 (p : list byte) : Z := le_combine (firstn 8 p).

End coding.
Import coding.

(** ** Slice *)

(** [data_] is the memory visible from the slice's data pointer onwards,
    [size_] the slice's length; the bytes of the slice are the first [size_]
    bytes of [data_]. *)
Record Slice : Type := mkSlice { data_ : list byte; size_ : nat }.

Definition Slice_empty : Slice := mkSlice [] 0.
Definition Slice_bytes (s : Slice) : list byte := firstn (size_ s) (data_ s).
Definition remove_prefix (n : nat) (s : Slice) : Slice :=
  mkSlice (skipn n (data_ s)) (size_ s - n).

(** The slice over a whole string ([Slice(const std::string&)]). *)
Definition Slice_of_string (s : list byte) : Slice := mkSlice s (length s).

(** ** blob_log_format.h *)

Module blob_log_format.

(** enum RecordType : uint8_t *)
Definition kFullType : Z := 0.
Definition kFirstType : Z := 1.
Definition kMiddleType : Z := 2.
Definition kLastType : Z := 3.
Definition kMaxRecordType : Z := kLastType.

(** enum RecordSubType : uint8_t *)
Definition kRegularType : Z := 0.
Definition kTTLType : Z := 1.
Definition kTimestampType : Z := 2.

Definition ttlrange_t : Type := (Z * Z)%type.
Definition tsrange_t : Type := (Z * Z)%type.
Definition snrange_t : Type := (Z * Z)%type.

(** *** BlobLogRecord *)

(** [key_] and [blob_] hold the bytes of the two slices; [kbs_] and [bbs_]
    are the capacities of the owned key and blob buffers. *)
Record BlobLogRecord : Type := mkRecord {
  checksum_ : Z;
  header_cksum_ : Z;
  key_size_ : Z;
  blob_size_ : Z;
  time_val_ : Z;
  ttl_val_ : Z;
  sn_ : Z;
  type_ : Z;
  subtype_ : Z;
  key_ : list byte;
  blob_ : list byte;
  kbs_ : Z;
  bbs_ : Z
}.

Definition kHeaderSize : Z := 4 + 4 + 4 + 8 + 4 + 8 + 1 + 1.
Definition kFooterSize : Z := 8.

Definition GetKeySize (r : BlobLogRecord) : Z := key_size_ r.
Definition GetBlobSize (r : BlobLogRecord) : Z := blob_size_ r.
Definition GetTTL (r : BlobLogRecord) : Z := ttl_val_ r.
Definition GetTimeVal (r : BlobLogRecord) : Z := time_val_ r.
Definition GetSN (r : BlobLogRecord) : Z := sn_ r.
Definition Key (r : BlobLogRecord) : list byte := key_ r.
Definition Blob (r : BlobLogRecord) : list byte := blob_ r.

Definition set_sn (v : Z) (r : BlobLogRecord) : BlobLogRecord :=
  mkRecord (checksum_ r) (header_cksum_ r) (key_size_ r) (blob_size_ r)
           (time_val_ r) (ttl_val_ r) v (type_ r) (subtype_ r)
           (key_ r) (blob_ r) (kbs_ r) (bbs_ r).

Definition set_key (k : list byte) (r : BlobLogRecord) : BlobLogRecord :=
  mkRecord (checksum_ r) (header_cksum_ r) (key_size_ r) (blob_size_ r)
           (time_val_ r) (ttl_val_ r) (sn_ r) (type_ r) (subtype_ r)
           k (blob_ r) (kbs_ r) (bbs_ r).

Definition set_blob (b : list byte) (r : BlobLogRecord) : BlobLogRecord :=
  mkRecord (checksum_ r) (header_cksum_ r) (key_size_ r) (blob_size_ r)
           (time_val_ r) (ttl_val_ r) (sn_ r) (type_ r) (subtype_ r)
           (key_ r) b (kbs_ r) (bbs_ r).

(** Modelled from the spec: the body of [BlobLogRecord::clear] is outside
    these sources; it resets the scalar fields to zero and truncates the key
    and blob spans to empty, keeping the buffers. *)
Definition clear (r : BlobLogRecord) : BlobLogRecord :=
  mkRecord 0 0 0 0 0 0 0 0 0 [] [] (kbs_ r) (bbs_ r).

(** Modelled from the spec: the bodies of [resizeKeyBuffer] and
    [resizeBlobBuffer] are outside these sources; each grows the owned
    buffer to at least the requested size when it is smaller and does
    nothing otherwise. *)
Definition resizeKeyBuffer (kbs : Z) (r : BlobLogRecord) : BlobLogRecord :=
  mkRecord (checksum_ r) (header_cksum_ r) (key_size_ r) (blob_size_ r)
           (time_val_ r) (ttl_val_ r) (sn_ r) (type_ r) (subtype_ r)
           (key_ r) (blob_ r) (Z.max (kbs_ r) kbs) (bbs_ r).

Definition resizeBlobBuffer (bbs : Z) (r : BlobLogRecord) : BlobLogRecord :=
  mkRecord (checksum_ r) (header_cksum_ r) (key_size_ r) (blob_size_ r)
           (time_val_ r) (ttl_val_ r) (sn_ r) (type_ r) (subtype_ r)
           (key_ r) (blob_ r) (kbs_ r) (Z.max (bbs_ r) bbs).

(** The scalar header fields of a record, as one tuple:
    key_size, blob_size, ttl_val, time_val, type, subtype. *)
Definition scalars (r : BlobLogRecord) : Z * Z * Z * Z * Z * Z :=
  (key_size_ r, blob_size_ r, ttl_val_ r, time_val_ r, type_ r, subtype_ r).

Section RecordHeader.

(** The 32-bit checksum over a byte span ([util/crc32c.h]), opaque here. *)
Variable crc : list byte -> Z.

(** Accessors of the 34-byte record header image:
    payload_checksum(4) header_checksum(4) key_size(4) blob_size(8)
    ttl_val(4) time_val(8) type(1) subtype(1). *)
Definition hdr_checksum (h : list byte) : Z := DecodeFixed32 h.
Definition hdr_header_cksum (h : list byte) : Z := DecodeFixed32 (skipn 4 h).
Definition hdr_key_size (h : list byte) : Z := DecodeFixed32 (skipn 8 h).
Definition hdr_blob_size (h : list byte) : Z := DecodeFixed64 (skipn 12 h).
Definition hdr_ttl_val (h : list byte) : Z := DecodeFixed32 (skipn 20 h).
Definition hdr_time_val (h : list byte) : Z := DecodeFixed64 (skipn 24 h).
Definition hdr_type (h : list byte) : Z := le_combine (firstn 1 (skipn 32 h)).
Definition hdr_subtype (h : list byte) : Z := le_combine (firstn 1 (skipn 33 h)).

(** The 26 header bytes that follow header_checksum. *)
Definition hdr_checked_bytes (h : list byte) : list byte :=
  firstn 26 (skipn 8 h).

(** Modelled from the spec: the body of [BlobLogRecord::DecodeHeaderFrom]
    is outside these sources.  It reads the fixed 34-byte record header,
    recomputes the checksum over the 26 bytes following header_checksum
    and fails with [HeaderChecksumMismatch] on mismatch, before anything
    else is looked at; then it fails with [UnknownRecordType] or
    [UnknownSubtype] when a tag byte is no defined variant; on success it
    populates every scalar field and consumes the 34 bytes.  An input
    shorter than 34 bytes is rejected as [MalformedHeader].  A failed
    decode leaves record and input as they were. *)
Definition check_header (h : list byte) : Status :=
  if (length h <? 34)%nat then MalformedHeader
  else if negb (crc (hdr_checked_bytes h) =? hdr_header_cksum h)
  then HeaderChecksumMismatch
  else if kMaxRecordType <? hdr_type h then UnknownRecordType
  else if kTimestampType <? hdr_subtype h then UnknownSubtype
  else OK.

Definition populate (h : list byte) (r : BlobLogRecord) : BlobLogRecord :=
  mkRecord (hdr_checksum h) (hdr_header_cksum h) (hdr_key_size h)
           (hdr_blob_size h) (hdr_time_val h) (hdr_ttl_val h) (sn_ r)
           (hdr_type h) (hdr_subtype h) (key_ r) (blob_ r)
           (kbs_ r) (bbs_ r).

Definition DecodeHeaderFrom (r : BlobLogRecord) (input : Slice)
  : Status * BlobLogRecord * Slice :=
  let h := Slice_bytes input in
  match check_header h with
  | OK => (OK, populate h r, remove_prefix 34 input)
  | s => (s, r, input)
  end.

End RecordHeader.

(** *** BlobLogHeader and BlobLogFooter *)

(** A nullable owned range ([std::unique_ptr<ttlrange_t>]) is an [option]. *)
Record BlobLogHeader : Type := mkHeader {
  h_magic_number_ : Z;
  ttl_guess_ : option ttlrange_t;
  ts_guess_ : option tsrange_t
}.

Definition BlobLogHeader_kHeaderSize : Z := 4 + 4 + 4 * 2 + 8 * 2.

Definition BlobLogHeader_HasTTL (h : BlobLogHeader) : bool :=
  match ttl_guess_ h with Some _ => true | None => false end.
Definition BlobLogHeader_HasTimestamp (h : BlobLogHeader) : bool :=
  match ts_guess_ h with Some _ => true | None => false end.

Record BlobLogFooter : Type := mkFooter {
  f_magic_number_ : Z;
  blob_count_ : Z;
  ttl_range_ : option ttlrange_t;
  ts_range_ : option tsrange_t;
  sn_range_ : snrange_t
}.

Definition BlobLogFooter_kFooterSize : Z :=
  4 + 4 + 8 + (4 * 2) + (8 * 2) + (8 * 2).

Definition BlobLogFooter_HasTTL (f : BlobLogFooter) : bool :=
  match ttl_range_ f with Some _ => true | None => false end.
Definition BlobLogFooter_HasTimestamp (f : BlobLogFooter) : bool :=
  match ts_range_ f with Some _ => true | None => false end.
Definition GetBlobCount (f : BlobLogFooter) : Z := blob_count_ f.
Definition GetSNRange (f : BlobLogFooter) : snrange_t := sn_range_ f.

(** Modelled from the spec: [GetFixed32]/[GetFixed64] of [util/coding.h] are
    outside these sources; each decodes one fixed-width integer from the
    front of a slice and consumes it, and fails on a slice that is too
    short. *)
Definition GetFixed32 (input : Slice) : option (Z * Slice) :=
  if (size_ input <? 4)%nat then None
  else Some (DecodeFixed32 (data_ input), remove_prefix 4 input).

Definition GetFixed64 (input : Slice) : option (Z * Slice) :=
  if (size_ input <? 8)%nat then None
  else Some (DecodeFixed64 (data_ input), remove_prefix 8 input).

Notation "'get' x , i <- e ; k" :=
  (match e with Some (x, i) => k | None => None end)
  (at level 10, x name, i name, e at level 100, k at level 200,
   only parsing).

(** Presence flags: bit 0 is "has TTL range", bit 1 is "has timestamp
    range". *)
Definition presence_flags (has_ttl has_ts : bool) : Z :=
  Z.lor (if has_ttl then 1 else 0) (if has_ts then 2 else 0).

Definition range_or_zero (r : option (Z * Z)) : Z * Z :=
  match r with Some p => p | None => (0, 0) end.

Definition range_if (present : bool) (lo hi : Z) : option (Z * Z) :=
  if present then Some (lo, hi) else None.

Section Magic.

(** [extern const uint32_t kMagicNumber]: its value is outside these sources.
    The spec gives the footer a constant of its own. *)
Variable kMagicNumber : Z.
Variable kFooterMagicNumber : Z.

(** Modelled from the spec: the body of [BlobLogHeader::EncodeTo] is outside
    these sources; it appends magic number, flags word, TTL range and
    timestamp range (each zero-filled when absent), 32 bytes in all. *)
Definition BlobLogHeader_EncodeTo (h : BlobLogHeader) (dst : list byte)
  : list byte :=
  dst
  ++ EncodeFixed32 (h_magic_number_ h)
  ++ EncodeFixed32 (presence_flags (BlobLogHeader_HasTTL h)
                                  (BlobLogHeader_HasTimestamp h))
  ++ EncodeFixed32 (fst (range_or_zero (ttl_guess_ h)))
  ++ EncodeFixed32 (snd (range_or_zero (ttl_guess_ h)))
  ++ EncodeFixed64 (fst (range_or_zero (ts_guess_ h)))
  ++ EncodeFixed64 (snd (range_or_zero (ts_guess_ h))).

Definition parse_header (input : Slice) : option (BlobLogHeader * Slice) :=
  get magic, i1 <- GetFixed32 input;
  get flags, i2 <- GetFixed32 i1;
  get ttl_lo, i3 <- GetFixed32 i2;
  get ttl_hi, i4 <- GetFixed32 i3;
  get ts_lo, i5 <- GetFixed64 i4;
  get ts_hi, i6 <- GetFixed64 i5;
  if magic =? kMagicNumber
  then Some (mkHeader magic
                      (range_if (Z.testbit flags 0) ttl_lo ttl_hi)
                      (range_if (Z.testbit flags 1) ts_lo ts_hi), i6)
  else None.

(** Modelled from the spec: the body of [BlobLogHeader::DecodeFrom] is
    outside these sources; it fails with [MalformedHeader] when fewer than 32
    bytes are available or the magic number is not the expected constant, and
    otherwise populates the optional ranges according to the flags, consuming
    exactly 32 bytes.  A failed decode leaves header and input as they
    were. *)
Definition BlobLogHeader_DecodeFrom (h : BlobLogHeader) (input : Slice)
  : Status * BlobLogHeader * Slice :=
  match parse_header input with
  | Some (h', rest) => (OK, h', rest)
  | None => (MalformedHeader, h, input)
  end.

(** Modelled from the spec: the body of [BlobLogFooter::EncodeTo] is outside
    these sources; it appends magic number, flags, blob count, TTL range
    (zero-filled when absent), sequence-number range and timestamp range
    (zero-filled when absent), 56 bytes in all. *)
Definition BlobLogFooter_EncodeTo (f : BlobLogFooter) (dst : list byte)
  : list byte :=
  dst
  ++ EncodeFixed32 (f_magic_number_ f)
  ++ EncodeFixed32 (presence_flags (BlobLogFooter_HasTTL f)
                                  (BlobLogFooter_HasTimestamp f))
  ++ EncodeFixed64 (blob_count_ f)
  ++ EncodeFixed32 (fst (range_or_zero (ttl_range_ f)))
  ++ EncodeFixed32 (snd (range_or_zero (ttl_range_ f)))
  ++ EncodeFixed64 (fst (sn_range_ f))
  ++ EncodeFixed64 (snd (sn_range_ f))
  ++ EncodeFixed64 (fst (range_or_zero (ts_range_ f)))
  ++ EncodeFixed64 (snd (range_or_zero (ts_range_ f))).

Definition parse_footer (input : Slice) : option (BlobLogFooter * Slice) :=
  get magic, i1 <- GetFixed32 input;
  get flags, i2 <- GetFixed32 i1;
  get count, i3 <- GetFixed64 i2;
  get ttl_lo, i4 <- GetFixed32 i3;
  get ttl_hi, i5 <- GetFixed32 i4;
  get sn_lo, i6 <- GetFixed64 i5;
  get sn_hi, i7 <- GetFixed64 i6;
  get ts_lo, i8 <- GetFixed64 i7;
  get ts_hi, i9 <- GetFixed64 i8;
  if magic =? kFooterMagicNumber
  then Some (mkFooter magic count
                      (range_if (Z.testbit flags 0) ttl_lo ttl_hi)
                      (range_if (Z.testbit flags 1) ts_lo ts_hi)
                      (sn_lo, sn_hi), i9)
  else None.

(** Modelled from the spec: the body of [BlobLogFooter::DecodeFrom] is
    outside these sources; it fails with [MalformedFooter] on insufficient
    length or magic mismatch. *)
Definition BlobLogFooter_DecodeFrom (f : BlobLogFooter) (input : Slice)
  : Status * BlobLogFooter * Slice :=
  match parse_footer input with
  | Some (f', rest) => (OK, f', rest)
  | None => (MalformedFooter, f, input)
  end.

(** A valid value: the magic number is the format's constant and every
    field fits its fixed width. *)
Definition fits32 (v : Z) : Prop := 0 <= v < 2 ^ 32.
Definition fits64 (v : Z) : Prop := 0 <= v < 2 ^ 64.

Definition range_fits (bound : Z -> Prop) (r : option (Z * Z)) : Prop :=
  match r with Some (lo, hi) => bound lo /\ bound hi | None => True end.

Definition valid_header (h : BlobLogHeader) : Prop :=
  h_magic_number_ h = kMagicNumber /\ fits32 kMagicNumber /\
  range_fits fits32 (ttl_guess_ h) /\ range_fits fits64 (ts_guess_ h).

Definition valid_footer (f : BlobLogFooter) : Prop :=
  f_magic_number_ f = kFooterMagicNumber /\ fits32 kFooterMagicNumber /\
  fits64 (blob_count_ f) /\
  range_fits fits32 (ttl_range_ f) /\ range_fits fits64 (ts_range_ f) /\
  fits64 (fst (sn_range_ f)) /\ fits64 (snd (sn_range_ f)).

End Magic.

End blob_log_format.
Import blob_log_format.

(** ** The sequential file under the reader *)

(** Modelled from the spec: [SequentialFileReader] ([util/file_reader_writer.h])
    is outside these sources; the reader needs a byte stream with reads of a
    requested length, byte skips and a status for each.  [Read n f] gives the
    status, the bytes it stored at the start of the scratch area (the result
    slice is exactly these bytes) and the file after the call; [Skip n f]
    gives the status and the file after the call.  Nothing is assumed about
    an implementation. *)
Class SequentialFileReader (F : Type) : Type := {
  Read : Z -> F -> Status * list byte * F;
  Skip : Z -> F -> Status * F
}.

(** Writing [bytes] at the start of a memory area. *)
Definition store_bytes (bytes mem : list byte) : list byte :=
  bytes ++ skipn (length bytes) mem.

(** ** The reader *)

Module blob_log_reader.

(** Modelled from the spec: [READ_LEVEL] is declared in [blob_log_reader.h],
    outside these sources; the three depths are those that [ReadRecord]
    switches on. *)
Inductive READ_LEVEL : Type :=
| kReadLevelHdrFooter
| kReadLevelHdrFooterKey
| kReadLevelHdrFooterKeyBlob.

(** Modelled from the spec: [WALRecoveryMode] is declared outside these
    sources; the spec distinguishes a tolerant and a strict recovery
    policy. *)
Inductive WALRecoveryMode : Type :=
| kTolerateCorruptedTailRecords
| kAbsoluteConsistency.

Section WithFile.

Context {F : Type} {file_ops : SequentialFileReader F}.

(** The 32-bit checksum over a byte span, opaque. *)
Variable crc : list byte -> Z.

(** [extern const uint32_t kMagicNumber]. *)
Variable kMagicNumber : Z.

(** [backing_store_] is the block-sized scratch area, [buffer_] the slice
    into it that the last read produced. *)
Record Reader : Type := mkReader {
  file_ : F;
  backing_store_ : list byte;
  buffer_ : Slice;
  next_byte_ : Z
}.

(** Reader::Reader: [mem] is the content of the freshly allocated
    [new char[kBlockSize]]. *)
Definition Reader_new (file : F) (mem : list byte) : Reader :=
  mkReader file mem Slice_empty 0.

(** [file_->Read(n, &buffer_, backing_store_.get())] *)
Definition read_to_scratch (n : Z) (rd : Reader) : Status * Reader :=
  let '(status, bytes, f) := Read n (file_ rd) in
  let mem := store_bytes bytes (backing_store_ rd) in
  (status, mkReader f mem (mkSlice mem (length bytes)) (next_byte_ rd)).

(** [file_->Skip(n)], its status dropped as in the source. *)
Definition skip_in_file (n : Z) (rd : Reader) : Reader :=
  let '(_, f) := Skip n (file_ rd) in
  mkReader f (backing_store_ rd) (buffer_ rd) (next_byte_ rd).

(** [file_->Read(n, &record->key_, record->getKeyBuffer())] *)
Definition read_key (n : Z) (record : BlobLogRecord) (rd : Reader)
  : Status * BlobLogRecord * Reader :=
  let '(status, bytes, f) := Read n (file_ rd) in
  (status, set_key bytes record,
   mkReader f (backing_store_ rd) (buffer_ rd) (next_byte_ rd)).

(** [file_->Read(n, &record->blob_, record->getBlobBuffer())] *)
Definition read_blob (n : Z) (record : BlobLogRecord) (rd : Reader)
  : Status * BlobLogRecord * Reader :=
  let '(status, bytes, f) := Read n (file_ rd) in
  (status, set_blob bytes record,
   mkReader f (backing_store_ rd) (buffer_ rd) (next_byte_ rd)).

Definition advance (n : Z) (rd : Reader) : Reader :=
  mkReader (file_ rd) (backing_store_ rd) (buffer_ rd)
           (wrap64 (next_byte_ rd + n)).

Definition set_buffer (b : Slice) (rd : Reader) : Reader :=
  mkReader (file_ rd) (backing_store_ rd) b (next_byte_ rd).

(** [buffer_.clear(); backing_store_.get()[0] = '\0';] *)
Definition reset_scratch (rd : Reader) : Reader :=
  mkReader (file_ rd) (store_bytes [Byte.x00] (backing_store_ rd))
           Slice_empty (next_byte_ rd).

(** Reader::ReadHeader.  [assert(next_byte_ == 0)] is a precondition of the
    caller and is not executed here. *)
Definition ReadHeader (rd : Reader) (header : BlobLogHeader)
  : Status * BlobLogHeader * Reader :=
  let '(status, rd) := read_to_scratch BlobLogHeader_kHeaderSize rd in
  if negb (ok status) then (status, header, rd)
  else
    let '(status, header, rest) :=
      BlobLogHeader_DecodeFrom kMagicNumber header (buffer_ rd) in
    (status, header, set_buffer rest rd).

(** The footer read, the decode of [sn_] and the offset update that close
    every case of the switch:
      status = file_->Read(kFooterSize, &buffer_, backing_store_.get());
      record->sn_ = DecodeFixed64(buffer_.data());
      next_byte_ += (kb_size + kFooterSize);
      return status; *)
Definition read_footer (kb_size : Z) (record : BlobLogRecord) (rd : Reader)
  : Status * BlobLogRecord * Reader :=
  let '(status, rd) := read_to_scratch kFooterSize rd in
  let record := set_sn (DecodeFixed64 (data_ (buffer_ rd))) record in
  let rd := advance (wrap64 (kb_size + kFooterSize)) rd in
  (status, record, rd).

(** The switch on the read level, entered once the record header has been
    decoded.  The status of the key read and of the blob read is assigned
    and then overwritten by the status of the footer read. *)
Definition read_body (record : BlobLogRecord) (level : READ_LEVEL)
  (rd : Reader) : Status * BlobLogRecord * Reader :=
  let kb_size := wrap64 (GetKeySize record + GetBlobSize record) in
  match level with
  | kReadLevelHdrFooter =>
      let rd := skip_in_file kb_size rd in
      read_footer kb_size record rd
  | kReadLevelHdrFooterKey =>
      let record := resizeKeyBuffer (GetKeySize record) record in
      let '(status, record, rd) := read_key (GetKeySize record) record rd in
      let rd := skip_in_file (GetBlobSize record) rd in
      read_footer kb_size record rd
  | kReadLevelHdrFooterKeyBlob =>
      let record := resizeKeyBuffer (GetKeySize record) record in
      let '(status, record, rd) := read_key (GetKeySize record) record rd in
      let record := resizeBlobBuffer (GetBlobSize record) record in
      let '(status, record, rd) := read_blob (GetBlobSize record) record rd in
      read_footer kb_size record rd
  end.

(** Reader::ReadRecord *)
Definition ReadRecord (rd : Reader) (record : BlobLogRecord)
  (level : READ_LEVEL) (wal_recovery_mode : WALRecoveryMode)
  : Status * BlobLogRecord * Reader :=
  let record := clear record in
  let rd := reset_scratch rd in
  let '(status, rd) := read_to_scratch kHeaderSize rd in
  let rd := advance kHeaderSize rd in
  if negb (ok status) then (status, record, rd)
  else
    let '(status, record, rest) := DecodeHeaderFrom crc record (buffer_ rd) in
    let rd := set_buffer rest rd in
    if negb (ok status) then (status, record, rd)
    else read_body record level rd.

(** The reader right after the record header has been read into the scratch
    area: [hb] are the bytes the read produced, [f1] the file after it. *)
Definition after_header_read (rd : Reader) (hb : list byte) (f1 : F)
  : Reader :=
  let mem := store_bytes hb (store_bytes [Byte.x00] (backing_store_ rd)) in
  mkReader f1 mem (mkSlice mem (length hb))
           (wrap64 (next_byte_ rd + kHeaderSize)).

(** A caller driving repeated [ReadRecord] calls on one reader and one
    record object, with a level and a recovery mode for each call; the
    status and the record of every call are collected. *)
Fixpoint scan (rd : Reader) (record : BlobLogRecord)
  (calls : list (READ_LEVEL * WALRecoveryMode))
  : list (Status * BlobLogRecord) * Reader :=
  match calls with
  | [] => ([], rd)
  | (level, mode) :: rest =>
      let '(st, r', rd') := ReadRecord rd record level mode in
      let '(out, rd'') := scan rd' r' rest in
      ((st, r') :: out, rd'')
  end.

End WithFile.

Arguments Reader F : clear implicits.

(** The bytes one record takes in the file, from the sizes in the record. *)
Definition record_extent (r : BlobLogRecord) : Z :=
  kHeaderSize + key_size_ r + blob_size_ r + kFooterSize.

Definition sum_Z (l : list Z) : Z := fold_right Z.add 0 l.

(** Dropping the materialized key and blob of a record. *)
Definition discard_key_blob (r : BlobLogRecord) : BlobLogRecord :=
  set_blob [] (set_key [] r).

(** The precondition of the fixed-width 64-bit decode on a slice. *)
Definition holds_fixed64 (s : Slice) : bool := (8 <=? size_ s)%nat.

End blob_log_reader.
Import blob_log_reader.

(** ** A file in memory, a concrete checksum and record images

    The reader is stated over every [SequentialFileReader]; this instance is
    the stream on which concrete runs are evaluated. *)

Module mem_file.

(** Modelled from the spec: the byte stream is an outside collaborator with
    exact-length reads, byte skips and end-of-stream signalling.  [unread]
    holds the bytes not yet consumed.  [faults] schedules I/O failures: each
    call takes the head of the list, and on [true] fails with [IoError]
    without consuming anything.  A read or skip past the end hands out what
    is left and signals [EndOfLog]. *)
Record MemFile : Type := mkMemFile {
  unread : list byte;
  faults : list bool
}.

Definition mem_Read (n : Z) (f : MemFile) : Status * list byte * MemFile :=
  match faults f with
  | true :: fs => (IoError, [], mkMemFile (unread f) fs)
  | fs =>
      let k := Z.to_nat n in
      ((if (k <=? length (unread f))%nat then OK else EndOfLog),
       firstn k (unread f),
       mkMemFile (skipn k (unread f)) (tl fs))
  end.

Definition mem_Skip (n : Z) (f : MemFile) : Status * MemFile :=
  match faults f with
  | true :: fs => (IoError, mkMemFile (unread f) fs)
  | fs =>
      let k := Z.to_nat n in
      ((if (k <=? length (unread f))%nat then OK else EndOfLog),
       mkMemFile (skipn k (unread f)) (tl fs))
  end.

#[export] Instance MemFile_ops : SequentialFileReader MemFile :=
  {| Read := mem_Read; Skip := mem_Skip |}.

(** Modelled from the spec: [util/crc32c.h] is outside these sources and the
    spec treats the checksum as an opaque 32-bit function.  CRC-32C
    (Castagnoli, reflected polynomial 0x82F63B78), bit by bit, stands for it
    wherever a concrete stream is evaluated. *)
Definition crc32c_shift (c : Z) : Z :=
  if Z.odd c then Z.lxor (Z.shiftr c 1) 0x82F63B78 else Z.shiftr c 1.

Definition crc32c_byte (c : Z) (b : byte) : Z :=
  Nat.iter 8 crc32c_shift (Z.lxor c (byte.unsigned b)).

Definition crc32c_Value (data : list byte) : Z :=
  Z.lxor (fold_left crc32c_byte data 0xFFFFFFFF) 0xFFFFFFFF.

(** Modelled from the spec: the writer is outside these sources; the image
    of one record follows the layout table of the spec (section 6): the
    34-byte record header, the key, the blob and the 8-byte footer with the
    sequence number.  [payload] is the stored payload checksum. *)
Definition header_tail (key_size blob_size ttl time type subtype : Z)
  : list byte :=
  EncodeFixed32 key_size ++ EncodeFixed64 blob_size ++ EncodeFixed32 ttl
  ++ EncodeFixed64 time ++ [byte.of_Z type; byte.of_Z subtype].

Definition record_header_image (crc : list byte -> Z)
  (payload key_size blob_size ttl time type subtype : Z) : list byte :=
  let tail := header_tail key_size blob_size ttl time type subtype in
  EncodeFixed32 payload ++ EncodeFixed32 (crc tail) ++ tail.

Definition record_image (crc : list byte -> Z) (key blob : list byte)
  (ttl time type subtype sn : Z) : list byte :=
  record_header_image crc (crc (key ++ blob))
    (Z.of_nat (length key)) (Z.of_nat (length blob)) ttl time type subtype
  ++ key ++ blob ++ EncodeFixed64 sn.

Definition bytes_of (l : list Z) : list byte := map byte.of_Z l.

End mem_file.
Import mem_file.

(** ** Sample data on which the statements are evaluated *)

Module samples.

Definition sample_key : list byte := bytes_of [107; 101; 121].
Definition sample_blob : list byte := bytes_of [1; 2; 3; 4; 5].

(** A well-formed record: key of 3 bytes, blob of 5 bytes, sequence
    number 42. *)
Definition sample_record : list byte :=
  record_image crc32c_Value sample_key sample_blob 7 9
               kFullType kRegularType 42.

(** A second well-formed record: empty key, blob of 2 bytes, sequence
    number 43. *)
Definition second_record : list byte :=
  record_image crc32c_Value [] (bytes_of [9; 9]) 0 0 kFullType kTTLType 43.

(** The sample record with a stored payload checksum of 0, which is not the
    checksum of its key and blob; its header checksum is right. *)
Definition bad_payload_record : list byte :=
  record_header_image crc32c_Value 0 3 5 7 9 kFullType kRegularType
  ++ sample_key ++ sample_blob ++ EncodeFixed64 42.

(** Every bit of byte [i] flipped. *)
Definition flip_byte (i : nat) (l : list byte) : list byte :=
  firstn i l
  ++ map (fun b => byte.of_Z (Z.lxor (byte.unsigned b) 255))
         (firstn 1 (skipn i l))
  ++ skipn (S i) l.

(** The sample record with the top byte of blob_size flipped and the header
    checksum left stale. *)
Definition bad_header_record : list byte := flip_byte 19 sample_record.

(** A record without key and blob, cut after 3 of its 8 footer bytes. *)
Definition truncated_record : list byte :=
  firstn 37 (record_image crc32c_Value [] [] 0 0 kFullType kRegularType
                          0x0807060504030201).

Definition scratch : list byte := repeat Byte.x00 64.

Definition empty_record : BlobLogRecord :=
  mkRecord 0 0 0 0 0 0 0 0 0 [] [] 0 0.

(** A freshly opened reader on a file in memory. *)
Definition reader_on (stream : list byte) (io_faults : list bool)
  : Reader MemFile :=
  Reader_new (mkMemFile stream io_faults) scratch.

Definition sample_magic : Z := 2395959.
Definition sample_footer_magic : Z := 2395960.

(** Scenario A of the spec: TTL present, timestamp absent. *)
Definition sample_header : BlobLogHeader :=
  mkHeader sample_magic (Some (10, 3600)) None.

Definition sample_footer : BlobLogFooter :=
  mkFooter sample_footer_magic 3 None (Some (1000, 2000)) (42, 44).

Definition blank_header : BlobLogHeader := mkHeader 0 None None.
Definition blank_footer : BlobLogFooter := mkFooter 0 0 None None (0, 0).

End samples.
Import samples.

(** ** blob_log_format.h: the inline setters and getters of the ranges *)

Module range_accessors.

(** [ttl_guess_.reset(new ttlrange_t(ttl))] *)
Definition setTTLGuess (ttl : ttlrange_t) (h : BlobLogHeader)
  : BlobLogHeader :=
  mkHeader (h_magic_number_ h) (Some ttl) (ts_guess_ h).

(** [ts_guess_.reset(new tsrange_t(ts))] *)
Definition setTSGuess (ts : tsrange_t) (h : BlobLogHeader) : BlobLogHeader :=
  mkHeader (h_magic_number_ h) (ttl_guess_ h) (Some ts).

(** [ttl_range_.reset(new ttlrange_t(ttl))] *)
Definition setTTLRange (ttl : ttlrange_t) (f : BlobLogFooter)
  : BlobLogFooter :=
  mkFooter (f_magic_number_ f) (blob_count_ f) (Some ttl) (ts_range_ f)
           (sn_range_ f).

(** [ts_range_.reset(new tsrange_t(ts))] *)
Definition setTimeRange (ts : tsrange_t) (f : BlobLogFooter)
  : BlobLogFooter :=
  mkFooter (f_magic_number_ f) (blob_count_ f) (ttl_range_ f) (Some ts)
           (sn_range_ f).

(** [return *(ttl_range_.get())]: the dereference of the owned pointer; on
    a null pointer the source has no defined result, which is [None]
    here. *)
Definition GetTTLRange (f : BlobLogFooter) : option ttlrange_t := ttl_range_ f.

(** [return *(ts_range_.get())], as [GetTTLRange]. *)
Definition GetTimeRange (f : BlobLogFooter) : option tsrange_t := ts_range_ f.

End range_accessors.
Import range_accessors.

(** ** Streams of whole records *)

Module whole_records.

(** The four parts of one record as they lie in a file. *)
Record RecordImage : Type := mkImage {
  ri_header : list byte;
  ri_key : list byte;
  ri_blob : list byte;
  ri_footer : list byte
}.

Definition image_bytes (ri : RecordImage) : list byte :=
  ri_header ri ++ ri_key ri ++ ri_blob ri ++ ri_footer ri.

(** A whole record: a 34-byte header that passes the header check and
    announces the sizes of the key and blob that follow it, and 8 footer
    bytes. *)
Definition whole_record (crc : list byte -> Z) (ri : RecordImage) : Prop :=
  length (ri_header ri) = 34%nat /\
  length (ri_footer ri) = 8%nat /\
  check_header crc (ri_header ri) = OK /\
  hdr_key_size (ri_header ri) = Z.of_nat (length (ri_key ri)) /\
  hdr_blob_size (ri_header ri) = Z.of_nat (length (ri_blob ri)) /\
  Z.of_nat (length (ri_key ri)) + Z.of_nat (length (ri_blob ri)) < 2 ^ 64.

Definition stream_of (recs : list RecordImage) : list byte :=
  concat (map image_bytes recs).

(** The two sample records, split into their parts. *)
Definition sample_image : RecordImage :=
  mkImage (firstn 34 sample_record) sample_key sample_blob
          (EncodeFixed64 42).

Definition second_image : RecordImage :=
  mkImage (firstn 34 second_record) [] (bytes_of [9; 9]) (EncodeFixed64 43).

End whole_records.
Import whole_records.

(** * Properties *)

(** ** Arithmetic and byte-level helpers *)

Lemma wrap64_add_l (a b : Z) : wrap64 (wrap64 a + b) = wrap64 (a + b).
Proof. unfold wrap64. apply Zplus_mod_idemp_l. Qed.

Lemma wrap64_add_r (a b : Z) : wrap64 (a + wrap64 b) = wrap64 (a + b).
Proof. unfold wrap64. apply Zplus_mod_idemp_r. Qed.

Lemma wrap64_small (a : Z) : 0 <= a < 2 ^ 64 -> wrap64 a = a.
Proof. intros H. unfold wrap64. apply Z.mod_small. exact H. Qed.

Lemma wrap64_offsets (nb ks bs : Z) :
  wrap64 (wrap64 (nb + kHeaderSize)
          + wrap64 (wrap64 (ks + bs) + kFooterSize))
  = wrap64 (nb + (kHeaderSize + ks + bs + kFooterSize)).
Proof.
  rewrite wrap64_add_l, wrap64_add_r.
  replace (nb + kHeaderSize + (wrap64 (ks + bs) + kFooterSize))
    with (wrap64 (ks + bs) + (nb + kHeaderSize + kFooterSize)) by lia.
  rewrite wrap64_add_l. f_equal. lia.
Qed.

Lemma Slice_bytes_store (bytes mem : list byte) :
  Slice_bytes (mkSlice (store_bytes bytes mem) (length bytes)) = bytes.
Proof.
  unfold Slice_bytes, store_bytes. simpl.
  rewrite firstn_app, firstn_all, Nat.sub_diag. simpl.
  apply app_nil_r.
Qed.

Lemma ok_true (s : Status) : ok s = true -> s = OK.
Proof. destruct s; simpl; intros H; try discriminate; reflexivity. Qed.

Lemma check_header_not_stream_status (crc : list byte -> Z) (h : list byte) :
  check_header crc h <> EndOfLog /\ check_header crc h <> IoError.
Proof.
  unfold check_header.
  destruct (length h <? 34)%nat; [split; discriminate|].
  destruct (negb _); [split; discriminate|].
  destruct (_ <? _); [split; discriminate|].
  destruct (_ <? _); split; discriminate.
Qed.

(** ** What the switch of ReadRecord does, whatever the file *)

Section ReaderFacts.

Context {F : Type} {file_ops : SequentialFileReader F}.

Lemma read_footer_spec (kb : Z) (record : BlobLogRecord) (rd : Reader F) :
  let '(st, bytes, f) := Read kFooterSize (file_ rd) in
  let mem := store_bytes bytes (backing_store_ rd) in
  read_footer kb record rd =
  (st, set_sn (DecodeFixed64 mem) record,
   mkReader f mem (mkSlice mem (length bytes))
            (wrap64 (next_byte_ rd + wrap64 (kb + kFooterSize)))).
Proof.
  unfold read_footer, read_to_scratch.
  destruct (Read kFooterSize (file_ rd)) as [[st bytes] f]. reflexivity.
Qed.

Lemma read_footer_next_byte (kb : Z) (record : BlobLogRecord) (rd : Reader F) :
  next_byte_ (snd (read_footer kb record rd))
  = wrap64 (next_byte_ rd + wrap64 (kb + kFooterSize)).
Proof.
  pose proof (read_footer_spec kb record rd) as H.
  destruct (Read kFooterSize (file_ rd)) as [[st bytes] f].
  rewrite H. reflexivity.
Qed.

Lemma read_footer_scalars (kb : Z) (record : BlobLogRecord) (rd : Reader F) :
  scalars (snd (fst (read_footer kb record rd))) = scalars record.
Proof.
  pose proof (read_footer_spec kb record rd) as H.
  destruct (Read kFooterSize (file_ rd)) as [[st bytes] f].
  rewrite H. reflexivity.
Qed.

Lemma read_footer_sn (kb : Z) (record : BlobLogRecord) (rd : Reader F) :
  let '(_, r', rd') := read_footer kb record rd in
  sn_ r' = DecodeFixed64 (data_ (buffer_ rd')) /\
  data_ (buffer_ rd') = backing_store_ rd'.
Proof.
  pose proof (read_footer_spec kb record rd) as H.
  destruct (Read kFooterSize (file_ rd)) as [[st bytes] f].
  rewrite H. split; reflexivity.
Qed.

(** The three parts of the reader that every case of the switch leaves
    alone. *)
Lemma read_key_frame (n : Z) (record : BlobLogRecord) (rd : Reader F) :
  let '(_, r', rd') := read_key n record rd in
  scalars r' = scalars record /\ next_byte_ rd' = next_byte_ rd.
Proof.
  unfold read_key. destruct (Read n (file_ rd)) as [[st bytes] f].
  split; reflexivity.
Qed.

Lemma read_blob_frame (n : Z) (record : BlobLogRecord) (rd : Reader F) :
  let '(_, r', rd') := read_blob n record rd in
  scalars r' = scalars record /\ next_byte_ rd' = next_byte_ rd.
Proof.
  unfold read_blob. destruct (Read n (file_ rd)) as [[st bytes] f].
  split; reflexivity.
Qed.

Lemma skip_in_file_next_byte (n : Z) (rd : Reader F) :
  next_byte_ (skip_in_file n rd) = next_byte_ rd.
Proof.
  unfold skip_in_file. destruct (Skip n (file_ rd)) as [st f]. reflexivity.
Qed.

Lemma scalars_sizes (a b : BlobLogRecord) :
  scalars a = scalars b ->
  GetKeySize a = GetKeySize b /\ GetBlobSize a = GetBlobSize b.
Proof.
  unfold scalars, GetKeySize, GetBlobSize. intros H.
  inversion H. split; reflexivity.
Qed.

Lemma read_body_spec (record : BlobLogRecord) (level : READ_LEVEL)
  (rd : Reader F) :
  let '(_, r', rd') := read_body record level rd in
  scalars r' = scalars record /\
  next_byte_ rd'
  = wrap64 (next_byte_ rd
            + wrap64 (wrap64 (key_size_ record + blob_size_ record)
                      + kFooterSize)) /\
  sn_ r' = DecodeFixed64 (data_ (buffer_ rd')) /\
  data_ (buffer_ rd') = backing_store_ rd'.
Proof.
  unfold read_body.
  destruct level.
  - set (kb := wrap64 _).
    pose proof (read_footer_scalars kb record (skip_in_file kb rd)) as Hs.
    pose proof (read_footer_next_byte kb record (skip_in_file kb rd)) as Hn.
    pose proof (read_footer_sn kb record (skip_in_file kb rd)) as Hd.
    destruct (read_footer kb record (skip_in_file kb rd)) as [[s r'] rd'].
    simpl in Hs, Hn. rewrite skip_in_file_next_byte in Hn.
    destruct Hd as [Hd1 Hd2]. repeat split; assumption.
  - set (kb := wrap64 _).
    set (r1 := resizeKeyBuffer _ record).
    pose proof (read_key_frame (GetKeySize r1) r1 rd) as Hk.
    destruct (read_key (GetKeySize r1) r1 rd) as [[s1 r2] rd2].
    destruct Hk as [Hk1 Hk2].
    set (rd3 := skip_in_file (GetBlobSize r2) rd2).
    pose proof (read_footer_scalars kb r2 rd3) as Hs.
    pose proof (read_footer_next_byte kb r2 rd3) as Hn.
    pose proof (read_footer_sn kb r2 rd3) as Hd.
    destruct (read_footer kb r2 rd3) as [[s r'] rd'].
    simpl in Hs, Hn. unfold rd3 in Hn.
    rewrite skip_in_file_next_byte, Hk2 in Hn.
    destruct Hd as [Hd1 Hd2].
    repeat split; try assumption.
    rewrite Hs, Hk1. reflexivity.
  - set (kb := wrap64 _).
    set (r1 := resizeKeyBuffer _ record).
    pose proof (read_key_frame (GetKeySize r1) r1 rd) as Hk.
    destruct (read_key (GetKeySize r1) r1 rd) as [[s1 r2] rd2].
    destruct Hk as [Hk1 Hk2].
    set (r3 := resizeBlobBuffer _ r2).
    pose proof (read_blob_frame (GetBlobSize r3) r3 rd2) as Hb.
    destruct (read_blob (GetBlobSize r3) r3 rd2) as [[s2 r4] rd4].
    destruct Hb as [Hb1 Hb2].
    pose proof (read_footer_scalars kb r4 rd4) as Hs.
    pose proof (read_footer_next_byte kb r4 rd4) as Hn.
    pose proof (read_footer_sn kb r4 rd4) as Hd.
    destruct (read_footer kb r4 rd4) as [[s r'] rd'].
    simpl in Hs, Hn. rewrite Hb2, Hk2 in Hn.
    destruct Hd as [Hd1 Hd2].
    repeat split; try assumption.
    rewrite Hs, Hb1. change (scalars r3) with (scalars r2).
    rewrite Hk1. reflexivity.
Qed.

End ReaderFacts.

Section ReadRecordShape.

Context {F : Type} {file_ops : SequentialFileReader F}.
Variable crc : list byte -> Z.

Lemma DecodeHeaderFrom_failed (r : BlobLogRecord) (input : Slice) :
  check_header crc (Slice_bytes input) <> OK ->
  DecodeHeaderFrom crc r input
  = (check_header crc (Slice_bytes input), r, input).
Proof.
  intros H. unfold DecodeHeaderFrom.
  destruct (check_header crc (Slice_bytes input)); try reflexivity.
  contradiction.
Qed.

Lemma DecodeHeaderFrom_ok (r : BlobLogRecord) (input : Slice) :
  check_header crc (Slice_bytes input) = OK ->
  DecodeHeaderFrom crc r input
  = (OK, populate (Slice_bytes input) r, remove_prefix 34 input).
Proof. intros H. unfold DecodeHeaderFrom. rewrite H. reflexivity. Qed.

Lemma ReadRecord_header_read_failed (rd : Reader F) (record : BlobLogRecord)
  (level : READ_LEVEL) (mode : WALRecoveryMode)
  (st : Status) (hb : list byte) (f1 : F) :
  Read kHeaderSize (file_ rd) = (st, hb, f1) ->
  st <> OK ->
  ReadRecord crc rd record level mode
  = (st, clear record, after_header_read rd hb f1).
Proof.
  intros HR Hst. unfold ReadRecord, read_to_scratch, reset_scratch.
  simpl. rewrite HR.
  destruct st; try reflexivity. contradiction.
Qed.

Lemma ReadRecord_decode_failed (rd : Reader F) (record : BlobLogRecord)
  (level : READ_LEVEL) (mode : WALRecoveryMode)
  (hb : list byte) (f1 : F) :
  Read kHeaderSize (file_ rd) = (OK, hb, f1) ->
  check_header crc hb <> OK ->
  ReadRecord crc rd record level mode
  = (check_header crc hb, clear record, after_header_read rd hb f1).
Proof.
  intros HR Hc. unfold ReadRecord, read_to_scratch, reset_scratch.
  simpl. rewrite HR. simpl.
  rewrite DecodeHeaderFrom_failed; rewrite Slice_bytes_store; [|exact Hc].
  destruct (check_header crc hb); try reflexivity. contradiction.
Qed.

Lemma ReadRecord_decoded (rd : Reader F) (record : BlobLogRecord)
  (level : READ_LEVEL) (mode : WALRecoveryMode)
  (hb : list byte) (f1 : F) :
  Read kHeaderSize (file_ rd) = (OK, hb, f1) ->
  check_header crc hb = OK ->
  ReadRecord crc rd record level mode
  = read_body (populate hb (clear record)) level
      (set_buffer (remove_prefix 34 (buffer_ (after_header_read rd hb f1)))
                  (after_header_read rd hb f1)).
Proof.
  intros HR Hc. unfold ReadRecord, read_to_scratch, reset_scratch.
  simpl. rewrite HR. simpl.
  rewrite DecodeHeaderFrom_ok; rewrite Slice_bytes_store; [|exact Hc].
  reflexivity.
Qed.

(** A call that returns [OK] went through the switch. *)
Lemma ReadRecord_OK_inv (rd : Reader F) (record : BlobLogRecord)
  (level : READ_LEVEL) (mode : WALRecoveryMode) r' rd' :
  ReadRecord crc rd record level mode = (OK, r', rd') ->
  exists hb f1,
    Read kHeaderSize (file_ rd) = (OK, hb, f1) /\
    check_header crc hb = OK.
Proof.
  intros H.
  destruct (Read kHeaderSize (file_ rd)) as [[st hb] f1] eqn:HR.
  destruct st;
    try (rewrite (ReadRecord_header_read_failed rd record level mode _ hb f1 HR)
           in H by discriminate; discriminate).
  exists hb, f1. split; [reflexivity|].
  destruct (check_header crc hb) eqn:Hc; try reflexivity;
    rewrite (ReadRecord_decode_failed rd record level mode hb f1 HR) in H
      by (rewrite Hc; discriminate);
    rewrite Hc in H; discriminate.
Qed.

(** The offset after a call that returned [OK], in terms of the sizes the
    call left in the record. *)
Lemma ReadRecord_OK_next_byte (rd : Reader F) (record : BlobLogRecord)
  (level : READ_LEVEL) (mode : WALRecoveryMode) r' rd' :
  ReadRecord crc rd record level mode = (OK, r', rd') ->
  next_byte_ rd'
  = wrap64 (next_byte_ rd
            + (kHeaderSize + key_size_ r' + blob_size_ r' + kFooterSize)).
Proof.
  intros H.
  destruct (ReadRecord_OK_inv _ _ _ _ _ _ H) as (hb & f1 & HR & Hc).
  rewrite (ReadRecord_decoded rd record level mode hb f1 HR Hc) in H.
  match type of H with read_body ?r ?l ?d = _ =>
    pose proof (read_body_spec r l d) as S; rewrite H in S end.
  destruct S as (Hs & Hn & _).
  apply scalars_sizes in Hs. unfold GetKeySize, GetBlobSize in Hs.
  destruct Hs as [Hk Hb]. rewrite Hk, Hb, Hn. simpl next_byte_.
  apply wrap64_offsets.
Qed.

End ReadRecordShape.

(** ** The recovery mode *)

Section RecoveryMode.

Context {F : Type} {file_ops : SequentialFileReader F}.
Variable crc : list byte -> Z.

(** C10: for every reader state, output record and read level, the whole
    result of ReadRecord (status, record, reader with its offset and file) is
    the same for all values of the recovery mode: the argument has no effect. *)
Theorem ReadRecord_ignores_wal_recovery_mode
  (rd : Reader F) (record : BlobLogRecord) (level : READ_LEVEL)
  (m1 m2 : WALRecoveryMode) :
  ReadRecord crc rd record level m1 = ReadRecord crc rd record level m2.
Proof. reflexivity. Qed.

End RecoveryMode.

(** ** ReadHeader and the offset *)

Section HeaderRead.

Context {F : Type} {file_ops : SequentialFileReader F}.
Variable kMagicNumber : Z.

Lemma ReadHeader_next_byte (rd : Reader F) (header : BlobLogHeader) :
  next_byte_ (snd (ReadHeader kMagicNumber rd header)) = next_byte_ rd.
Proof.
  unfold ReadHeader, read_to_scratch.
  destruct (Read BlobLogHeader_kHeaderSize (file_ rd)) as [[st bytes] f].
  destruct (negb (ok st)); [reflexivity|].
  destruct (BlobLogHeader_DecodeFrom _ _ _) as [[st' h'] rest].
  reflexivity.
Qed.

(** C8: ReadHeader called first on a freshly opened reader, whose offset is
    0, leaves the offset at 0, whatever the read and the decode return. *)
Theorem ReadHeader_leaves_next_byte_zero
  (rd : Reader F) (header : BlobLogHeader) :
  next_byte_ rd = 0 ->
  next_byte_ (snd (ReadHeader kMagicNumber rd header)) = 0.
Proof. intros H. rewrite ReadHeader_next_byte. exact H. Qed.

End HeaderRead.

(** ** The offset after successful reads *)

Section Offsets.

Context {F : Type} {file_ops : SequentialFileReader F}.
Variable crc : list byte -> Z.

Lemma hdr_sizes_nonneg (hb : list byte) :
  0 <= hdr_key_size hb /\ 0 <= hdr_blob_size hb.
Proof.
  unfold hdr_key_size, hdr_blob_size, DecodeFixed32, DecodeFixed64.
  split; apply le_combine_bound.
Qed.

Lemma ReadRecord_OK_sizes_nonneg (rd : Reader F) (record : BlobLogRecord)
  (level : READ_LEVEL) (mode : WALRecoveryMode) r' rd' :
  ReadRecord crc rd record level mode = (OK, r', rd') ->
  0 <= key_size_ r' /\ 0 <= blob_size_ r'.
Proof.
  intros H.
  destruct (ReadRecord_OK_inv crc _ _ _ _ _ _ H) as (hb & f1 & HR & Hc).
  rewrite (ReadRecord_decoded crc rd record level mode hb f1 HR Hc) in H.
  match type of H with read_body ?r ?l ?d = _ =>
    pose proof (read_body_spec r l d) as S; rewrite H in S end.
  destruct S as (Hs & _).
  apply scalars_sizes in Hs. unfold GetKeySize, GetBlobSize in Hs.
  destruct Hs as [Hk Hb]. rewrite Hk, Hb. simpl.
  apply hdr_sizes_nonneg.
Qed.

Lemma wrap64_range (a : Z) : 0 <= wrap64 a < 2 ^ 64.
Proof. unfold wrap64. apply Z.mod_pos_bound. reflexivity. Qed.

Lemma scan_next_byte (calls : list (READ_LEVEL * WALRecoveryMode)) :
  forall (rd : Reader F) (record : BlobLogRecord),
    0 <= next_byte_ rd < 2 ^ 64 ->
    Forall (fun p => fst p = OK) (fst (scan crc rd record calls)) ->
    next_byte_ (snd (scan crc rd record calls))
    = wrap64 (next_byte_ rd
              + sum_Z (map (fun p => record_extent (snd p))
                           (fst (scan crc rd record calls)))) /\
    0 <= sum_Z (map (fun p => record_extent (snd p))
                    (fst (scan crc rd record calls))).
Proof.
  induction calls as [|[level mode] rest IH]; intros rd record Hrange Hok.
  - simpl. rewrite Z.add_0_r, wrap64_small by exact Hrange.
    split; [reflexivity|lia].
  - cbn [scan] in *.
    destruct (ReadRecord crc rd record level mode) as [[st r'] rd'] eqn:E.
    specialize (IH rd' r').
    destruct (scan crc rd' r' rest) as [out rd''] eqn:E2.
    cbn [fst snd map sum_Z fold_right] in *.
    inversion Hok as [|x l Hst Hrest]; subst.
    cbn [fst] in Hst. subst st.
    pose proof (ReadRecord_OK_next_byte crc _ _ _ _ _ _ E) as Hnb.
    pose proof (ReadRecord_OK_sizes_nonneg _ _ _ _ _ _ E) as [Hk Hb].
    assert (Hr' : 0 <= next_byte_ rd' < 2 ^ 64)
      by (rewrite Hnb; apply wrap64_range).
    destruct (IH Hr' Hrest) as [IHn IHp].
    fold (sum_Z (map (fun p => record_extent (snd p)) out)) in *.
    set (rest_total := sum_Z _) in *.
    split.
    + rewrite IHn, Hnb, wrap64_add_l. f_equal.
      unfold record_extent. lia.
    + unfold record_extent, kHeaderSize, kFooterSize. lia.
Qed.

(** C4: after N calls of ReadRecord on one reader that all returned OK, at
    any mix of levels, the offset of the reader, which started at 0, is the
    sum over the N records of 34 + key_size + blob_size + 8: as a 64-bit
    value in general, and as the plain sum whenever that sum fits 64 bits. *)
Theorem next_byte_after_successful_reads
  (rd : Reader F) (record : BlobLogRecord)
  (calls : list (READ_LEVEL * WALRecoveryMode)) :
  next_byte_ rd = 0 ->
  Forall (fun p => fst p = OK) (fst (scan crc rd record calls)) ->
  let total :=
    sum_Z (map (fun p => 34 + key_size_ (snd p) + blob_size_ (snd p) + 8)
               (fst (scan crc rd record calls))) in
  next_byte_ (snd (scan crc rd record calls)) = wrap64 total /\
  (total < 2 ^ 64 -> next_byte_ (snd (scan crc rd record calls)) = total).
Proof.
  intros H0 Hok total.
  assert (Hrange : 0 <= next_byte_ rd < 2 ^ 64) by (rewrite H0; lia).
  destruct (scan_next_byte calls rd record Hrange Hok) as [Hn Hp].
  rewrite H0, Z.add_0_l in Hn.
  change (sum_Z (map (fun p => record_extent (snd p))
                     (fst (scan crc rd record calls)))) with total in Hn, Hp.
  split; [exact Hn|].
  intros Hlt. rewrite Hn. apply wrap64_small. lia.
Qed.

End Offsets.

(** ** Failures of the record header decode *)

Section HeaderDecode.

Context {F : Type} {file_ops : SequentialFileReader F}.
Variable crc : list byte -> Z.


Lemma check_header_OK_checksum (hb : list byte) :
  check_header crc hb = OK ->
  (34 <= length hb)%nat /\ crc (hdr_checked_bytes hb) = hdr_header_cksum hb.
Proof.
  unfold check_header.
  destruct (length hb <? 34)%nat eqn:E; [discriminate|].
  destruct (crc (hdr_checked_bytes hb) =? hdr_header_cksum hb) eqn:E2;
    [|discriminate].
  intros _. apply Nat.ltb_ge in E. apply Z.eqb_eq in E2. split; assumption.
Qed.


(** C2, as the code has it: ReadRecord does not consult the recovery mode.
    When the header of a record, the last one of the log included, has been
    read and fails its decode (checksum or tag), ReadRecord returns that
    failure under the tolerant mode exactly as under the strict one, and
    that status is never EndOfLog. *)
Theorem decode_failure_returned_under_every_mode
  (rd : Reader F) (record : BlobLogRecord) (level : READ_LEVEL)
  (hb : list byte) (f1 : F) :
  Read kHeaderSize (file_ rd) = (OK, hb, f1) ->
  check_header crc hb <> OK ->
  fst (fst (ReadRecord crc rd record level kTolerateCorruptedTailRecords))
  = check_header crc hb /\
  fst (fst (ReadRecord crc rd record level kAbsoluteConsistency))
  = check_header crc hb /\
  check_header crc hb <> EndOfLog.
Proof.
  intros HR Hc.
  rewrite !(ReadRecord_decode_failed crc rd record level _ hb f1 HR Hc).
  repeat split. apply check_header_not_stream_status.
Qed.

(** C1, as the code has it: at the key-and-blob level, for a record whose
    header has been read and decoded and whose key and blob reads both
    returned OK (both spans materialized), ReadRecord keeps the payload
    checksum of the header in the record next to the key and the blob and
    does not verify it: the status it returns is the status of the footer
    read (OK when that read succeeds), whether or not the stored payload
    checksum is the checksum of key and blob. *)
Theorem ReadRecord_key_blob_does_not_verify_payload
  (rd : Reader F) (record : BlobLogRecord) (mode : WALRecoveryMode)
  (hb key blob ftr : list byte) (f1 f2 f3 f4 : F) (st : Status) :
  Read kHeaderSize (file_ rd) = (OK, hb, f1) ->
  check_header crc hb = OK ->
  Read (hdr_key_size hb) f1 = (OK, key, f2) ->
  Read (hdr_blob_size hb) f2 = (OK, blob, f3) ->
  Read kFooterSize f3 = (st, ftr, f4) ->
  let '(s, r', rd') :=
    ReadRecord crc rd record kReadLevelHdrFooterKeyBlob mode in
  s = st /\ key_ r' = key /\ blob_ r' = blob /\
  checksum_ r' = hdr_checksum hb /\ file_ rd' = f4.
Proof.
  intros HR Hc Hk Hb Hf.
  rewrite (ReadRecord_decoded crc rd record _ mode hb f1 HR Hc).
  unfold read_body, read_key, read_blob, read_footer, read_to_scratch.
  cbn. rewrite Hk. cbn. rewrite Hb. cbn. rewrite Hf. cbn.
  repeat split.
Qed.

End HeaderDecode.

(** ** Reads of a whole record from a file in memory *)

Section MemFileFacts.

Lemma mem_Read_exact (n : Z) (bytes rest : list byte) :
  Z.to_nat n = length bytes ->
  Read n (mkMemFile (bytes ++ rest) []) = (OK, bytes, mkMemFile rest []).
Proof.
  intros H. cbn. unfold mem_Read. cbn. rewrite H.
  rewrite length_app.
  replace (length bytes <=? length bytes + length rest)%nat with true
    by (symmetry; apply Nat.leb_le; lia).
  rewrite firstn_app, firstn_all, Nat.sub_diag, skipn_app, skipn_all,
    Nat.sub_diag.
  cbn. rewrite app_nil_r. reflexivity.
Qed.

Lemma mem_Skip_exact (n : Z) (bytes rest : list byte) :
  Z.to_nat n = length bytes ->
  Skip n (mkMemFile (bytes ++ rest) []) = (OK, mkMemFile rest []).
Proof.
  intros H. cbn. unfold mem_Skip. cbn. rewrite H.
  rewrite length_app.
  replace (length bytes <=? length bytes + length rest)%nat with true
    by (symmetry; apply Nat.leb_le; lia).
  rewrite skipn_app, skipn_all, Nat.sub_diag.
  reflexivity.
Qed.

Lemma DecodeFixed64_store (bytes mem : list byte) :
  length bytes = 8%nat ->
  DecodeFixed64 (store_bytes bytes mem) = DecodeFixed64 bytes.
Proof.
  intros H. unfold DecodeFixed64, store_bytes.
  rewrite firstn_app, H. cbn [Nat.sub firstn].
  rewrite app_nil_r. reflexivity.
Qed.

Variable crc : list byte -> Z.

(** What each level gives on a file that holds a whole record. *)
Lemma ReadRecord_whole_record
  (rd : Reader MemFile) (record : BlobLogRecord) (level : READ_LEVEL)
  (mode : WALRecoveryMode) (hb key blob ftr rest : list byte) :
  file_ rd = mkMemFile (hb ++ key ++ blob ++ ftr ++ rest) [] ->
  length hb = 34%nat -> length ftr = 8%nat ->
  check_header crc hb = OK ->
  hdr_key_size hb = Z.of_nat (length key) ->
  hdr_blob_size hb = Z.of_nat (length blob) ->
  Z.of_nat (length key) + Z.of_nat (length blob) < 2 ^ 64 ->
  let '(s, r', rd') := ReadRecord crc rd record level mode in
  s = OK /\
  scalars r' = scalars (populate hb (clear record)) /\
  sn_ r' = DecodeFixed64 ftr /\
  key_ r' = match level with kReadLevelHdrFooter => [] | _ => key end /\
  blob_ r' = match level with kReadLevelHdrFooterKeyBlob => blob | _ => [] end /\
  file_ rd' = mkMemFile rest [] /\
  next_byte_ rd'
  = wrap64 (next_byte_ rd
            + (34 + Z.of_nat (length key) + Z.of_nat (length blob) + 8)).
Proof.
  intros Hfile Hh Hf Hc Hk Hb Hsum.
  assert (HR : Read kHeaderSize (file_ rd)
               = (OK, hb, mkMemFile (key ++ blob ++ ftr ++ rest) [])).
  { rewrite Hfile. apply mem_Read_exact. rewrite Hh. reflexivity. }
  rewrite (ReadRecord_decoded crc rd record level mode hb _ HR Hc).
  assert (Hkb : wrap64 (Z.of_nat (length key) + Z.of_nat (length blob))
                = Z.of_nat (length key) + Z.of_nat (length blob))
    by (apply wrap64_small; lia).
  unfold read_body, GetKeySize, GetBlobSize.
  cbn [key_size_ blob_size_ populate resizeKeyBuffer resizeBlobBuffer].
  rewrite Hk, Hb, Hkb.
  destruct level.
  - unfold skip_in_file, read_footer, read_to_scratch, after_header_read,
      set_buffer.
    cbn [file_ backing_store_ buffer_ next_byte_].
    rewrite (app_assoc key blob), mem_Skip_exact
      by (rewrite length_app; lia).
    cbn [file_ backing_store_ buffer_ next_byte_].
    rewrite mem_Read_exact by (rewrite Hf; reflexivity).
    cbn [file_ backing_store_ buffer_ next_byte_ data_ advance].
    rewrite DecodeFixed64_store by exact Hf.
    repeat split. rewrite <- Hkb at 1. apply wrap64_offsets.
  - unfold read_key, skip_in_file, read_footer, read_to_scratch,
      after_header_read, set_buffer.
    cbn [file_ backing_store_ buffer_ next_byte_].
    rewrite mem_Read_exact by lia.
    cbn [file_ backing_store_ buffer_ next_byte_ GetBlobSize set_key
         blob_size_].
    cbn [blob_size_ key_size_ resizeKeyBuffer resizeBlobBuffer populate
         set_key set_blob].
    rewrite ?Hb. rewrite mem_Skip_exact by lia.
    cbn [file_ backing_store_ buffer_ next_byte_].
    rewrite mem_Read_exact by (rewrite Hf; reflexivity).
    cbn [file_ backing_store_ buffer_ next_byte_ data_ advance].
    rewrite DecodeFixed64_store by exact Hf.
    repeat split. rewrite <- Hkb at 1. apply wrap64_offsets.
  - unfold read_key, read_blob, read_footer, read_to_scratch,
      after_header_read, set_buffer.
    cbn [file_ backing_store_ buffer_ next_byte_].
    rewrite mem_Read_exact by lia.
    cbn [file_ backing_store_ buffer_ next_byte_ GetBlobSize set_key
         blob_size_ resizeBlobBuffer].
    cbn [blob_size_ key_size_ resizeKeyBuffer resizeBlobBuffer populate
         set_key set_blob].
    rewrite ?Hb. rewrite mem_Read_exact by lia.
    cbn [file_ backing_store_ buffer_ next_byte_].
    rewrite mem_Read_exact by (rewrite Hf; reflexivity).
    cbn [file_ backing_store_ buffer_ next_byte_ data_ advance].
    rewrite DecodeFixed64_store by exact Hf.
    repeat split. rewrite <- Hkb at 1. apply wrap64_offsets.
Qed.

End MemFileFacts.

(** ** The same record at two levels *)

Section DepthEquivalence.

Variable crc : list byte -> Z.

(** C6: on a file that holds one whole record (34 header bytes that decode,
    the key, the blob and the 8 footer bytes), reading it at the
    key-and-blob level and dropping key and blob gives the same scalar
    header fields and the same sequence number as reading it at the
    header-and-footer level; at each of the three levels the call succeeds
    and the sequence number is the fixed-width decode of the 8 footer
    bytes. *)
Theorem depth_equivalence
  (rd : Reader MemFile) (rec1 rec2 rec3 : BlobLogRecord)
  (m1 m2 m3 : WALRecoveryMode) (hb key blob ftr rest : list byte) :
  file_ rd = mkMemFile (hb ++ key ++ blob ++ ftr ++ rest) [] ->
  length hb = 34%nat -> length ftr = 8%nat ->
  check_header crc hb = OK ->
  hdr_key_size hb = Z.of_nat (length key) ->
  hdr_blob_size hb = Z.of_nat (length blob) ->
  Z.of_nat (length key) + Z.of_nat (length blob) < 2 ^ 64 ->
  let '(s1, r1, rd1) := ReadRecord crc rd rec1 kReadLevelHdrFooter m1 in
  let '(s2, r2, rd2) := ReadRecord crc rd rec2 kReadLevelHdrFooterKeyBlob m2 in
  let '(s3, r3, rd3) := ReadRecord crc rd rec3 kReadLevelHdrFooterKey m3 in
  s1 = OK /\ s2 = OK /\ s3 = OK /\
  scalars (discard_key_blob r2) = scalars r1 /\
  sn_ (discard_key_blob r2) = sn_ r1 /\
  scalars r3 = scalars r1 /\
  sn_ r1 = DecodeFixed64 ftr /\ sn_ r2 = DecodeFixed64 ftr /\
  sn_ r3 = DecodeFixed64 ftr /\
  next_byte_ rd1 = next_byte_ rd2 /\ file_ rd1 = file_ rd2.
Proof.
  intros Hfile Hh Hf Hc Hk Hb Hsum.
  pose proof (ReadRecord_whole_record crc rd rec1 kReadLevelHdrFooter m1
                hb key blob ftr rest Hfile Hh Hf Hc Hk Hb Hsum) as H1.
  pose proof (ReadRecord_whole_record crc rd rec2 kReadLevelHdrFooterKeyBlob m2
                hb key blob ftr rest Hfile Hh Hf Hc Hk Hb Hsum) as H2.
  pose proof (ReadRecord_whole_record crc rd rec3 kReadLevelHdrFooterKey m3
                hb key blob ftr rest Hfile Hh Hf Hc Hk Hb Hsum) as H3.
  destruct (ReadRecord crc rd rec1 kReadLevelHdrFooter m1) as [[s1 r1] rd1].
  destruct (ReadRecord crc rd rec2 kReadLevelHdrFooterKeyBlob m2)
    as [[s2 r2] rd2].
  destruct (ReadRecord crc rd rec3 kReadLevelHdrFooterKey m3) as [[s3 r3] rd3].
  destruct H1 as (A1 & B1 & C1 & _ & _ & F1 & N1).
  destruct H2 as (A2 & B2 & C2 & _ & _ & F2 & N2).
  destruct H3 as (A3 & B3 & C3 & _).
  change (scalars (discard_key_blob r2)) with (scalars r2).
  change (sn_ (discard_key_blob r2)) with (sn_ r2).
  rewrite B1, B2, B3, C1, C2, C3, F1, F2, N1, N2.
  repeat split; assumption.
Qed.

End DepthEquivalence.

(** ** Header and footer round trip *)

Section RoundTrip.

Lemma GetFixed32_Encode (v : Z) (d : list byte) (n : nat) :
  (4 <= n)%nat ->
  GetFixed32 (mkSlice (EncodeFixed32 v ++ d) n)
  = Some (wrap32 v, mkSlice d (n - 4)).
Proof.
  intros H. unfold GetFixed32, EncodeFixed32, DecodeFixed32, remove_prefix.
  cbn [size_ data_].
  replace (n <? 4)%nat with false by (symmetry; apply Nat.ltb_ge; exact H).
  rewrite firstn_app, skipn_app, length_le_split.
  rewrite firstn_all2, skipn_all2 by (rewrite length_le_split; lia).
  cbn [Nat.sub firstn skipn app]. rewrite app_nil_r, le_combine_split.
  reflexivity.
Qed.

Lemma GetFixed64_Encode (v : Z) (d : list byte) (n : nat) :
  (8 <= n)%nat ->
  GetFixed64 (mkSlice (EncodeFixed64 v ++ d) n)
  = Some (wrap64 v, mkSlice d (n - 8)).
Proof.
  intros H. unfold GetFixed64, EncodeFixed64, DecodeFixed64, remove_prefix.
  cbn [size_ data_].
  replace (n <? 8)%nat with false by (symmetry; apply Nat.ltb_ge; exact H).
  rewrite firstn_app, skipn_app, length_le_split.
  rewrite firstn_all2, skipn_all2 by (rewrite length_le_split; lia).
  cbn [Nat.sub firstn skipn app]. rewrite app_nil_r, le_combine_split.
  reflexivity.
Qed.

Lemma length_EncodeFixed32 (v : Z) : length (EncodeFixed32 v) = 4%nat.
Proof. apply length_le_split. Qed.

Lemma length_EncodeFixed64 (v : Z) : length (EncodeFixed64 v) = 8%nat.
Proof. apply length_le_split. Qed.

Lemma wrap32_small (a : Z) : fits32 a -> wrap32 a = a.
Proof. intros H. unfold wrap32. apply Z.mod_small. exact H. Qed.

Lemma presence_flags_bits (a b : bool) :
  wrap32 (presence_flags a b) = presence_flags a b /\
  Z.testbit (presence_flags a b) 0 = a /\
  Z.testbit (presence_flags a b) 1 = b.
Proof. destruct a, b; repeat split. Qed.

Lemma range_round32 (present : option (Z * Z)) :
  range_fits fits32 present ->
  range_if (match present with Some _ => true | None => false end)
           (wrap32 (fst (range_or_zero present)))
           (wrap32 (snd (range_or_zero present)))
  = present.
Proof.
  destruct present as [[lo hi]|]; cbn; [|reflexivity].
  intros [Hlo Hhi]. rewrite !wrap32_small by assumption. reflexivity.
Qed.

Lemma range_round64 (present : option (Z * Z)) :
  range_fits fits64 present ->
  range_if (match present with Some _ => true | None => false end)
           (wrap64 (fst (range_or_zero present)))
           (wrap64 (snd (range_or_zero present)))
  = present.
Proof.
  destruct present as [[lo hi]|]; cbn; [|reflexivity].
  intros [Hlo Hhi]. rewrite !wrap64_small by assumption. reflexivity.
Qed.

Variable kMagicNumber : Z.
Variable kFooterMagicNumber : Z.

Lemma header_round_trip (h h0 : BlobLogHeader) :
  valid_header kMagicNumber h ->
  BlobLogHeader_DecodeFrom kMagicNumber h0
    (Slice_of_string (BlobLogHeader_EncodeTo h []))
  = (OK, h, mkSlice [] 0).
Proof.
  intros (Hm & Hfit & Httl & Hts).
  unfold BlobLogHeader_DecodeFrom, parse_header, Slice_of_string,
    BlobLogHeader_EncodeTo.
  rewrite !length_app, !length_EncodeFixed32, !length_EncodeFixed64.
  cbn [app length Nat.add].
  rewrite <- (app_nil_r (EncodeFixed64 (snd _))).
  rewrite GetFixed32_Encode by lia.
  rewrite GetFixed32_Encode by lia.
  rewrite GetFixed32_Encode by lia.
  rewrite GetFixed32_Encode by lia.
  rewrite GetFixed64_Encode by lia.
  rewrite GetFixed64_Encode by lia.
  destruct (presence_flags_bits (BlobLogHeader_HasTTL h)
                                (BlobLogHeader_HasTimestamp h))
    as (Hw & Hb0 & Hb1).
  rewrite Hw, Hb0, Hb1, Hm, wrap32_small by exact Hfit.
  rewrite Z.eqb_refl.
  unfold BlobLogHeader_HasTTL, BlobLogHeader_HasTimestamp.
  rewrite range_round32, range_round64 by assumption.
  destruct h as [magic ttl ts]. cbn in Hm. subst magic. reflexivity.
Qed.

Lemma footer_round_trip (f f0 : BlobLogFooter) :
  valid_footer kFooterMagicNumber f ->
  BlobLogFooter_DecodeFrom kFooterMagicNumber f0
    (Slice_of_string (BlobLogFooter_EncodeTo f []))
  = (OK, f, mkSlice [] 0).
Proof.
  intros (Hm & Hfit & Hcount & Httl & Hts & Hsn1 & Hsn2).
  unfold BlobLogFooter_DecodeFrom, parse_footer, Slice_of_string,
    BlobLogFooter_EncodeTo.
  rewrite !length_app, !length_EncodeFixed32, !length_EncodeFixed64.
  cbn [app length Nat.add].
  rewrite <- (app_nil_r (EncodeFixed64 (snd (range_or_zero _)))).
  rewrite GetFixed32_Encode by lia.
  rewrite GetFixed32_Encode by lia.
  rewrite GetFixed64_Encode by lia.
  rewrite GetFixed32_Encode by lia.
  rewrite GetFixed32_Encode by lia.
  rewrite GetFixed64_Encode by lia.
  rewrite GetFixed64_Encode by lia.
  rewrite GetFixed64_Encode by lia.
  rewrite GetFixed64_Encode by lia.
  destruct (presence_flags_bits (BlobLogFooter_HasTTL f)
                                (BlobLogFooter_HasTimestamp f))
    as (Hw & Hb0 & Hb1).
  rewrite Hw, Hb0, Hb1, Hm, wrap32_small by exact Hfit.
  rewrite Z.eqb_refl.
  unfold BlobLogFooter_HasTTL, BlobLogFooter_HasTimestamp.
  rewrite range_round32, range_round64 by assumption.
  rewrite !wrap64_small by assumption.
  destruct f as [magic count ttl ts [lo hi]]. cbn in Hm. subst magic.
  reflexivity.
Qed.

(** C7: for every valid header x and every valid footer y, DecodeFrom
    applied to the bytes EncodeTo produced returns OK and gives back x
    (respectively y), the absent or present state of the optional TTL and
    timestamp ranges included, and consumes the whole image. *)
Theorem header_footer_round_trip
  (h h0 : BlobLogHeader) (f f0 : BlobLogFooter) :
  valid_header kMagicNumber h ->
  valid_footer kFooterMagicNumber f ->
  BlobLogHeader_DecodeFrom kMagicNumber h0
    (Slice_of_string (BlobLogHeader_EncodeTo h []))
  = (OK, h, mkSlice [] 0) /\
  BlobLogFooter_DecodeFrom kFooterMagicNumber f0
    (Slice_of_string (BlobLogFooter_EncodeTo f []))
  = (OK, f, mkSlice [] 0).
Proof.
  intros Hh Hf. split.
  - apply header_round_trip. exact Hh.
  - apply footer_round_trip. exact Hf.
Qed.

End RoundTrip.

(** * Concrete runs *)

(** ** Payload checksum (C1) *)

(** C1 fails on the code: the record below is read whole at the
    key-and-blob level, the checksum of its key and blob differs from the
    payload checksum stored in its header, and ReadRecord returns OK, not
    PayloadChecksumMismatch. *)
Lemma payload_mismatch_read_returns_OK :
  let '(s, r', _) :=
    ReadRecord crc32c_Value (reader_on bad_payload_record []) empty_record
               kReadLevelHdrFooterKeyBlob kAbsoluteConsistency in
  key_ r' = sample_key /\ blob_ r' = sample_blob /\
  crc32c_Value (key_ r' ++ blob_ r') <> checksum_ r' /\
  s = OK /\ s <> PayloadChecksumMismatch.
Proof.
  vm_compute. repeat split; intros H; discriminate H.
Qed.

Lemma ReadRecord_key_blob_does_not_verify_payload_witness :
  let '(s, r', rd') :=
    ReadRecord crc32c_Value (reader_on bad_payload_record []) empty_record
               kReadLevelHdrFooterKeyBlob kAbsoluteConsistency in
  s = OK /\ key_ r' = sample_key /\ blob_ r' = sample_blob /\
  checksum_ r' = hdr_checksum (firstn 34 bad_payload_record) /\
  file_ rd' = mkMemFile [] [].
Proof.
  apply (ReadRecord_key_blob_does_not_verify_payload crc32c_Value
           (reader_on bad_payload_record []) empty_record
           kAbsoluteConsistency
           (firstn 34 bad_payload_record) sample_key sample_blob
           (EncodeFixed64 42)
           (mkMemFile (skipn 34 bad_payload_record) [])
           (mkMemFile (skipn 37 bad_payload_record) [])
           (mkMemFile (skipn 42 bad_payload_record) [])
           (mkMemFile [] []) OK);
    vm_compute; reflexivity.
Defined.

(** ** Recovery mode (C2) *)

(** C2 fails on the code: in a log of two records whose last record has a
    stale header checksum, a scan under the tolerant mode gets OK for the
    first record and HeaderChecksumMismatch, not EndOfLog, for the last. *)
Lemma tolerant_mode_surfaces_checksum_failure :
  map fst
      (fst (scan crc32c_Value
                 (reader_on (sample_record ++ bad_header_record) [])
                 empty_record
                 [(kReadLevelHdrFooterKeyBlob, kTolerateCorruptedTailRecords);
                  (kReadLevelHdrFooterKeyBlob, kTolerateCorruptedTailRecords)]))
  = [OK; HeaderChecksumMismatch] /\
  HeaderChecksumMismatch <> EndOfLog.
Proof.
  split; [vm_compute; reflexivity | discriminate].
Qed.

Lemma decode_failure_returned_under_every_mode_witness :
  fst (fst (ReadRecord crc32c_Value (reader_on bad_header_record [])
                       empty_record kReadLevelHdrFooter
                       kTolerateCorruptedTailRecords))
  = check_header crc32c_Value (firstn 34 bad_header_record) /\
  fst (fst (ReadRecord crc32c_Value (reader_on bad_header_record [])
                       empty_record kReadLevelHdrFooter
                       kAbsoluteConsistency))
  = check_header crc32c_Value (firstn 34 bad_header_record) /\
  check_header crc32c_Value (firstn 34 bad_header_record) <> EndOfLog.
Proof.
  apply (decode_failure_returned_under_every_mode crc32c_Value
           (reader_on bad_header_record []) empty_record kReadLevelHdrFooter
           (firstn 34 bad_header_record)
           (mkMemFile (skipn 34 bad_header_record) [])).
  - vm_compute. reflexivity.
  - vm_compute. intros H. discriminate H.
Defined.

(** ** Corrupted size field (C3) *)


(** ** Offsets (C4, C8) *)

Lemma next_byte_after_successful_reads_witness :
  next_byte_
    (snd (scan crc32c_Value
               (reader_on (sample_record ++ second_record ++ sample_record) [])
               empty_record
               [(kReadLevelHdrFooterKeyBlob, kTolerateCorruptedTailRecords);
                (kReadLevelHdrFooter, kAbsoluteConsistency);
                (kReadLevelHdrFooterKey, kAbsoluteConsistency)]))
  = (34 + 3 + 5 + 8) + (34 + 0 + 2 + 8) + (34 + 3 + 5 + 8).
Proof.
  pose proof (next_byte_after_successful_reads crc32c_Value
                (reader_on (sample_record ++ second_record ++ sample_record) [])
                empty_record
                [(kReadLevelHdrFooterKeyBlob, kTolerateCorruptedTailRecords);
                 (kReadLevelHdrFooter, kAbsoluteConsistency);
                 (kReadLevelHdrFooterKey, kAbsoluteConsistency)]) as W.
  cbv zeta in W.
  destruct W as [_ W].
  - reflexivity.
  - vm_compute. repeat constructor.
  - rewrite W; vm_compute; reflexivity.
Defined.

Lemma ReadHeader_leaves_next_byte_zero_witness :
  next_byte_
    (snd (ReadHeader sample_magic
            (reader_on (BlobLogHeader_EncodeTo sample_header []
                        ++ sample_record) [])
            blank_header))
  = 0.
Proof.
  apply (ReadHeader_leaves_next_byte_zero sample_magic
           (reader_on (BlobLogHeader_EncodeTo sample_header []
                       ++ sample_record) [])
           blank_header).
  reflexivity.
Defined.

(** ** I/O failures in the record body (C5) *)

(** The file below fails its second call with IoError (the skip at the
    header-and-footer level, the key read at the two other levels) and
    serves every other call; a second schedule fails the third call (the
    blob read or skip).  ReadRecord returns OK in each case: the failure is
    overwritten by the status of the footer read. *)
Theorem body_io_failure_lost :
  let stream := sample_record ++ second_record in
  let after_header := mkMemFile (skipn 34 stream) [true] in
  fst (Skip 8 after_header) = IoError /\
  fst (fst (Read 3 after_header)) = IoError /\
  (forall level,
     fst (fst (ReadRecord crc32c_Value (reader_on stream [false; true])
                          empty_record level kAbsoluteConsistency)) = OK) /\
  fst (fst (ReadRecord crc32c_Value (reader_on stream [false; false; true])
                       empty_record kReadLevelHdrFooterKeyBlob
                       kAbsoluteConsistency)) = OK /\
  fst (fst (ReadRecord crc32c_Value (reader_on stream [false; false; true])
                       empty_record kReadLevelHdrFooterKey
                       kAbsoluteConsistency)) = OK.
Proof.
  cbv zeta. repeat split; try (vm_compute; reflexivity).
  intros level. destruct level; vm_compute; reflexivity.
Qed.

(** ** The same record at every level (C6) *)

Lemma depth_equivalence_witness :
  let rd := reader_on (sample_record ++ second_record) [] in
  let '(s1, r1, rd1) :=
    ReadRecord crc32c_Value rd empty_record kReadLevelHdrFooter
               kAbsoluteConsistency in
  let '(s2, r2, rd2) :=
    ReadRecord crc32c_Value rd empty_record kReadLevelHdrFooterKeyBlob
               kTolerateCorruptedTailRecords in
  let '(s3, r3, rd3) :=
    ReadRecord crc32c_Value rd empty_record kReadLevelHdrFooterKey
               kAbsoluteConsistency in
  s1 = OK /\ s2 = OK /\ s3 = OK /\
  scalars (discard_key_blob r2) = scalars r1 /\
  sn_ (discard_key_blob r2) = sn_ r1 /\
  scalars r3 = scalars r1 /\
  sn_ r1 = DecodeFixed64 (EncodeFixed64 42) /\
  sn_ r2 = DecodeFixed64 (EncodeFixed64 42) /\
  sn_ r3 = DecodeFixed64 (EncodeFixed64 42) /\
  next_byte_ rd1 = next_byte_ rd2 /\ file_ rd1 = file_ rd2.
Proof.
  cbv zeta.
  apply (depth_equivalence crc32c_Value
           (reader_on (sample_record ++ second_record) [])
           empty_record empty_record empty_record
           kAbsoluteConsistency kTolerateCorruptedTailRecords
           kAbsoluteConsistency
           (firstn 34 sample_record) sample_key sample_blob
           (EncodeFixed64 42) second_record);
    vm_compute; reflexivity.
Defined.

(** ** Round trip (C7) *)

Lemma header_footer_round_trip_witness :
  BlobLogHeader_DecodeFrom sample_magic blank_header
    (Slice_of_string (BlobLogHeader_EncodeTo sample_header []))
  = (OK, sample_header, mkSlice [] 0) /\
  BlobLogFooter_DecodeFrom sample_footer_magic blank_footer
    (Slice_of_string (BlobLogFooter_EncodeTo sample_footer []))
  = (OK, sample_footer, mkSlice [] 0).
Proof.
  apply (header_footer_round_trip sample_magic sample_footer_magic
           sample_header blank_header sample_footer blank_footer).
  - unfold valid_header, fits32, fits64, sample_header, sample_magic.
    cbn. lia.
  - unfold valid_footer, fits32, fits64, sample_footer, sample_footer_magic.
    cbn. lia.
Defined.

(** ** The decode of the sequence number (C9) *)

(** C9: in every case of the switch the sequence number is the fixed-width
    decode of the memory at the scratch buffer, taken whatever the footer
    read returned; and on a stream cut after 3 of the 8 footer bytes the
    footer read yields a 3-byte slice and signals the end of the stream,
    yet at every level the sequence number is decoded from 8 bytes: the 3
    footer bytes followed by 5 bytes left over from the record header. *)
Theorem sn_decoded_whatever_the_footer_read_gave :
  (forall (F : Type) (ops : SequentialFileReader F)
          (record : BlobLogRecord) (level : READ_LEVEL) (rd : Reader F),
     let '(_, r', rd') := read_body record level rd in
     sn_ r' = DecodeFixed64 (data_ (buffer_ rd'))) /\
  (forall level : READ_LEVEL,
     let '(s, r', rd') :=
       ReadRecord crc32c_Value (reader_on truncated_record []) empty_record
                  level kAbsoluteConsistency in
     s = EndOfLog /\
     size_ (buffer_ rd') = 3%nat /\
     holds_fixed64 (buffer_ rd') = false /\
     sn_ r' = DecodeFixed64 (data_ (buffer_ rd')) /\
     firstn 8 (data_ (buffer_ rd'))
     = bytes_of [1; 2; 3] ++ firstn 5 (skipn 3 truncated_record) /\
     sn_ r' <> 0).
Proof.
  split.
  - intros F ops record level rd.
    pose proof (read_body_spec record level rd) as H.
    destruct (read_body record level rd) as [[s r'] rd'].
    destruct H as (_ & _ & H & _). exact H.
  - intros level.
    destruct level; vm_compute; repeat split; intros H; discriminate H.
Qed.

(** * Further properties of the reader *)

Section ReaderPaths.

Context {F : Type} {file_ops : SequentialFileReader F}.
Variable crc : list byte -> Z.

(** X1: when the read of the 34-byte record header does not return OK,
    ReadRecord returns that very status with the record as clear() left it,
    issues no other read or skip on the file, and has nevertheless advanced
    the offset by 34. *)
Theorem header_read_failure_returned
  (rd : Reader F) (record : BlobLogRecord) (level : READ_LEVEL)
  (mode : WALRecoveryMode) (st : Status) (hb : list byte) (f1 : F) :
  Read kHeaderSize (file_ rd) = (st, hb, f1) ->
  st <> OK ->
  let '(s, r', rd') := ReadRecord crc rd record level mode in
  s = st /\ r' = clear record /\ file_ rd' = f1 /\
  next_byte_ rd' = wrap64 (next_byte_ rd + 34).
Proof.
  intros HR Hst.
  rewrite (ReadRecord_header_read_failed crc rd record level mode st hb f1
             HR Hst).
  repeat split.
Qed.

(** X2: once the record header has been read and decoded, the offset
    advances by 34 + key_size + blob_size + 8 (as a 64-bit value) at every
    level and whatever the skip and the reads of key, blob and footer
    return, also when ReadRecord returns a failure; the sizes in the record
    are those of the header. *)
Theorem offset_advances_whatever_the_body_status
  (rd : Reader F) (record : BlobLogRecord) (level : READ_LEVEL)
  (mode : WALRecoveryMode) (hb : list byte) (f1 : F) :
  Read kHeaderSize (file_ rd) = (OK, hb, f1) ->
  check_header crc hb = OK ->
  let '(s, r', rd') := ReadRecord crc rd record level mode in
  key_size_ r' = hdr_key_size hb /\
  blob_size_ r' = hdr_blob_size hb /\
  next_byte_ rd'
  = wrap64 (next_byte_ rd + (34 + hdr_key_size hb + hdr_blob_size hb + 8)).
Proof.
  intros HR Hc.
  rewrite (ReadRecord_decoded crc rd record level mode hb f1 HR Hc).
  match goal with |- context [read_body ?r ?l ?d] =>
    pose proof (read_body_spec r l d) as S;
    destruct (read_body r l d) as [[s r'] rd'] end.
  destruct S as (Hs & Hn & _).
  apply scalars_sizes in Hs. unfold GetKeySize, GetBlobSize in Hs.
  destruct Hs as [Hk Hb].
  repeat split; [exact Hk | exact Hb |].
  rewrite Hn. apply wrap64_offsets.
Qed.

(** X3: at the header-and-footer level ReadRecord, after the header,
    issues one skip of key_size + blob_size bytes (the sum taken in 64
    bits) and one read of 8 bytes; it returns the status of that read,
    whatever the skip returned, and touches neither the key and blob
    slices nor the capacities of their buffers. *)
Theorem header_footer_level_skips_the_body
  (rd : Reader F) (record : BlobLogRecord) (mode : WALRecoveryMode)
  (hb ftr : list byte) (f1 f2 f3 : F) (ss st : Status) :
  Read kHeaderSize (file_ rd) = (OK, hb, f1) ->
  check_header crc hb = OK ->
  Skip (wrap64 (hdr_key_size hb + hdr_blob_size hb)) f1 = (ss, f2) ->
  Read kFooterSize f2 = (st, ftr, f3) ->
  let '(s, r', rd') :=
    ReadRecord crc rd record kReadLevelHdrFooter mode in
  s = st /\ file_ rd' = f3 /\
  key_ r' = [] /\ blob_ r' = [] /\
  kbs_ r' = kbs_ record /\ bbs_ r' = bbs_ record.
Proof.
  intros HR Hc Hs Hf.
  rewrite (ReadRecord_decoded crc rd record _ mode hb f1 HR Hc).
  unfold read_body, skip_in_file, read_footer, read_to_scratch,
    GetKeySize, GetBlobSize, after_header_read, set_buffer.
  cbn [key_size_ blob_size_ populate file_ backing_store_ buffer_
       next_byte_].
  rewrite Hs. cbn [file_ backing_store_ buffer_ next_byte_].
  rewrite Hf. repeat split.
Qed.

(** X4: at the header-footer-and-key level ReadRecord, after the header,
    issues a read of key_size bytes, a skip of blob_size bytes and a read of
    8 bytes; it returns the status of the last read whatever the first two
    calls returned, the key slice holds the bytes the key read produced,
    the key buffer has grown to key_size if it was smaller, and the blob
    slice and blob buffer are untouched. *)
Theorem key_level_reads_key_and_skips_blob
  (rd : Reader F) (record : BlobLogRecord) (mode : WALRecoveryMode)
  (hb key ftr : list byte) (f1 f2 f3 f4 : F) (sk ss st : Status) :
  Read kHeaderSize (file_ rd) = (OK, hb, f1) ->
  check_header crc hb = OK ->
  Read (hdr_key_size hb) f1 = (sk, key, f2) ->
  Skip (hdr_blob_size hb) f2 = (ss, f3) ->
  Read kFooterSize f3 = (st, ftr, f4) ->
  let '(s, r', rd') :=
    ReadRecord crc rd record kReadLevelHdrFooterKey mode in
  s = st /\ file_ rd' = f4 /\
  key_ r' = key /\ blob_ r' = [] /\
  kbs_ r' = Z.max (kbs_ record) (hdr_key_size hb) /\
  bbs_ r' = bbs_ record.
Proof.
  intros HR Hc Hk Hs Hf.
  rewrite (ReadRecord_decoded crc rd record _ mode hb f1 HR Hc).
  unfold read_body, read_key, skip_in_file, read_footer, read_to_scratch,
    GetKeySize, GetBlobSize, after_header_read, set_buffer.
  cbn [key_size_ blob_size_ populate resizeKeyBuffer file_ backing_store_
       buffer_ next_byte_].
  rewrite Hk.
  cbn [key_size_ blob_size_ set_key populate resizeKeyBuffer file_
       backing_store_ buffer_ next_byte_].
  rewrite Hs. cbn [file_ backing_store_ buffer_ next_byte_].
  rewrite Hf. repeat split.
Qed.

Lemma read_body_footer_slice (record : BlobLogRecord) (level : READ_LEVEL)
  (rd : Reader F) :
  let '(_, r', rd') := read_body record level rd in
  exists bytes mem,
    buffer_ rd' = mkSlice (store_bytes bytes mem) (length bytes) /\
    sn_ r' = DecodeFixed64 (store_bytes bytes mem).
Proof.
  assert (Hf : forall kb r d,
             let '(_, r', rd') := read_footer kb r d in
             exists bytes mem,
               buffer_ rd' = mkSlice (store_bytes bytes mem) (length bytes) /\
               sn_ r' = DecodeFixed64 (store_bytes bytes mem)).
  { intros kb r d. pose proof (read_footer_spec kb r d) as H.
    destruct (Read kFooterSize (file_ d)) as [[st bytes] f].
    rewrite H. exists bytes, (backing_store_ d). split; reflexivity. }
  unfold read_body. destruct level.
  - apply Hf.
  - destruct (read_key _ _ rd) as [[s1 r2] rd2]. apply Hf.
  - destruct (read_key _ _ rd) as [[s1 r2] rd2].
    destruct (read_blob _ _ rd2) as [[s2 r4] rd4]. apply Hf.
Qed.

(** X5: at every level, when the record header has been read and decoded
    and the footer read produced a slice of at least 8 bytes, the sequence
    number of the record is the fixed-width decode of the bytes of that
    slice. *)
Theorem sn_is_decode_of_footer_slice
  (rd : Reader F) (record : BlobLogRecord) (level : READ_LEVEL)
  (mode : WALRecoveryMode) (hb : list byte) (f1 : F)
  (s : Status) (r' : BlobLogRecord) (rd' : Reader F) :
  Read kHeaderSize (file_ rd) = (OK, hb, f1) ->
  check_header crc hb = OK ->
  ReadRecord crc rd record level mode = (s, r', rd') ->
  holds_fixed64 (buffer_ rd') = true ->
  sn_ r' = DecodeFixed64 (Slice_bytes (buffer_ rd')).
Proof.
  intros HR Hc H Hsz.
  rewrite (ReadRecord_decoded crc rd record level mode hb f1 HR Hc) in H.
  match type of H with read_body ?r ?l ?d = _ =>
    pose proof (read_body_footer_slice r l d) as S; rewrite H in S end.
  destruct S as (bytes & mem & Hb & Hsn).
  rewrite Hsn, Hb, Slice_bytes_store.
  rewrite Hb in Hsz. unfold holds_fixed64 in Hsz. cbn [size_] in Hsz.
  apply Nat.leb_le in Hsz.
  unfold DecodeFixed64, store_bytes.
  rewrite firstn_app.
  replace (8 - length bytes)%nat with 0%nat by lia.
  cbn [firstn]. rewrite app_nil_r. reflexivity.
Qed.

(** X6: for every file and every reader state, the scalar header fields of
    the record and the offset of the reader after ReadRecord do not depend
    on the level (nor on the recovery mode): the level only decides what
    is read from the body. *)
Theorem header_fields_and_offset_independent_of_level
  (rd : Reader F) (record : BlobLogRecord) (l1 l2 : READ_LEVEL)
  (m1 m2 : WALRecoveryMode) :
  let '(_, r1, rd1) := ReadRecord crc rd record l1 m1 in
  let '(_, r2, rd2) := ReadRecord crc rd record l2 m2 in
  scalars r1 = scalars r2 /\ next_byte_ rd1 = next_byte_ rd2.
Proof.
  destruct (Read kHeaderSize (file_ rd)) as [[st hb] f1] eqn:HR.
  assert (Hfail : forall s, s <> OK ->
            Read kHeaderSize (file_ rd) = (s, hb, f1) ->
            let '(_, r1, rd1) := ReadRecord crc rd record l1 m1 in
            let '(_, r2, rd2) := ReadRecord crc rd record l2 m2 in
            scalars r1 = scalars r2 /\ next_byte_ rd1 = next_byte_ rd2).
  { intros s Hs HR'.
    rewrite !(ReadRecord_header_read_failed crc rd record _ _ s hb f1 HR' Hs).
    split; reflexivity. }
  destruct st; try (eapply Hfail; [|exact HR]; discriminate).
  destruct (check_header crc hb) eqn:Hc.
  1: { rewrite !(ReadRecord_decoded crc rd record _ _ hb f1 HR Hc).
       repeat match goal with |- context [read_body ?r ?l ?d] =>
         let S := fresh "S" in
         pose proof (read_body_spec r l d) as S;
         destruct (read_body r l d) as [[? ?] ?] end.
       destruct S as (A1 & B1 & _). destruct S0 as (A2 & B2 & _).
       split; congruence. }
  all: rewrite !(ReadRecord_decode_failed crc rd record _ _ hb f1 HR)
         by (rewrite Hc; discriminate);
       split; reflexivity.
Qed.

End ReaderPaths.

(** * Further properties of ReadHeader *)

Section HeaderPaths.

Context {F : Type} {file_ops : SequentialFileReader F}.
Variable kMagicNumber : Z.

(** X7: when the read of the 32 header bytes does not return OK, ReadHeader
    returns that very status without decoding: the header object is
    untouched, the file is as that one read left it and the offset is
    unchanged. *)
Theorem ReadHeader_read_failure_returned
  (rd : Reader F) (header : BlobLogHeader)
  (st : Status) (bytes : list byte) (f1 : F) :
  Read BlobLogHeader_kHeaderSize (file_ rd) = (st, bytes, f1) ->
  st <> OK ->
  let '(s, h', rd') := ReadHeader kMagicNumber rd header in
  s = st /\ h' = header /\ file_ rd' = f1 /\ next_byte_ rd' = next_byte_ rd.
Proof.
  intros HR Hst. unfold ReadHeader, read_to_scratch. rewrite HR.
  destruct st; try contradiction; repeat split.
Qed.

Lemma parse_header_Some (input : Slice) (h : BlobLogHeader) (rest : Slice) :
  parse_header kMagicNumber input = Some (h, rest) ->
  (32 <= size_ input)%nat /\
  DecodeFixed32 (data_ input) = kMagicNumber /\
  h_magic_number_ h = kMagicNumber /\
  size_ rest = (size_ input - 32)%nat.
Proof.
  unfold parse_header, GetFixed32, GetFixed64, remove_prefix.
  cbn [size_ data_].
  destruct (size_ input <? 4)%nat eqn:E1; cbn [size_ data_];
    [discriminate|].
  destruct (size_ input - 4 <? 4)%nat eqn:E2; cbn [size_ data_];
    [discriminate|].
  destruct (size_ input - 4 - 4 <? 4)%nat eqn:E3; cbn [size_ data_];
    [discriminate|].
  destruct (size_ input - 4 - 4 - 4 <? 4)%nat eqn:E4; cbn [size_ data_];
    [discriminate|].
  destruct (size_ input - 4 - 4 - 4 - 4 <? 8)%nat eqn:E5; cbn [size_ data_];
    [discriminate|].
  destruct (size_ input - 4 - 4 - 4 - 4 - 8 <? 8)%nat eqn:E6; cbn [size_ data_];
    [discriminate|].
  destruct (DecodeFixed32 (data_ input) =? kMagicNumber) eqn:Em;
    [|discriminate].
  intros H. inversion H; subst. clear H.
  apply Nat.ltb_ge in E1, E2, E3, E4, E5, E6. apply Z.eqb_eq in Em.
  cbn [size_ h_magic_number_]. repeat split; try assumption; lia.
Qed.

(** X8: ReadHeader returns OK only if the read of the header returned OK
    with at least 32 bytes whose first four bytes hold kMagicNumber; the
    header then carries that magic number, the file has seen that one read
    only and exactly 32 bytes of the slice have been consumed. *)
Theorem ReadHeader_OK_inv
  (rd : Reader F) (header h' : BlobLogHeader) (rd' : Reader F) :
  ReadHeader kMagicNumber rd header = (OK, h', rd') ->
  exists bytes f1,
    Read BlobLogHeader_kHeaderSize (file_ rd) = (OK, bytes, f1) /\
    (32 <= length bytes)%nat /\
    DecodeFixed32 bytes = kMagicNumber /\
    h_magic_number_ h' = kMagicNumber /\
    file_ rd' = f1 /\
    size_ (buffer_ rd') = (length bytes - 32)%nat.
Proof.
  unfold ReadHeader, read_to_scratch, BlobLogHeader_DecodeFrom.
  destruct (Read BlobLogHeader_kHeaderSize (file_ rd)) as [[st bytes] f1].
  destruct st; cbn [ok negb]; try discriminate.
  cbn [buffer_].
  destruct (parse_header kMagicNumber _) as [[h rest]|] eqn:Hp;
    [|discriminate].
  intros H. inversion H; subst. clear H.
  apply parse_header_Some in Hp. cbn [size_ data_] in Hp.
  destruct Hp as (Hlen & Hm & Hh & Hr).
  exists bytes, f1. repeat split; try assumption.
  rewrite <- Hm. unfold DecodeFixed32, store_bytes.
  rewrite firstn_app.
  replace (4 - length bytes)%nat with 0%nat by lia.
  cbn [firstn]. rewrite app_nil_r. reflexivity.
Qed.

End HeaderPaths.

(** * Reading a log from a file in memory *)

Section WholeLog.

Variable crc : list byte -> Z.
Variable kMagicNumber : Z.

Lemma parse_header_encoded (h : BlobLogHeader) (tail : list byte) :
  valid_header kMagicNumber h ->
  parse_header kMagicNumber
    (mkSlice (BlobLogHeader_EncodeTo h [] ++ tail) 32)
  = Some (h, mkSlice tail 0).
Proof.
  intros (Hm & Hfit & Httl & Hts).
  unfold parse_header, BlobLogHeader_EncodeTo.
  cbn [app]. rewrite <- !app_assoc.
  rewrite GetFixed32_Encode by lia.
  rewrite GetFixed32_Encode by lia.
  rewrite GetFixed32_Encode by lia.
  rewrite GetFixed32_Encode by lia.
  rewrite GetFixed64_Encode by lia.
  rewrite GetFixed64_Encode by lia.
  destruct (presence_flags_bits (BlobLogHeader_HasTTL h)
                                (BlobLogHeader_HasTimestamp h))
    as (Hw & Hb0 & Hb1).
  rewrite Hw, Hb0, Hb1, Hm, wrap32_small by exact Hfit.
  rewrite Z.eqb_refl.
  unfold BlobLogHeader_HasTTL, BlobLogHeader_HasTimestamp.
  rewrite range_round32, range_round64 by assumption.
  destruct h as [magic ttl ts]. cbn in Hm. subst magic. reflexivity.
Qed.

Lemma length_BlobLogHeader_EncodeTo (h : BlobLogHeader) :
  length (BlobLogHeader_EncodeTo h []) = 32%nat.
Proof.
  unfold BlobLogHeader_EncodeTo. cbn [app].
  rewrite !length_app, !length_EncodeFixed32, !length_EncodeFixed64.
  reflexivity.
Qed.

(** X9: on a file in memory that starts with the 32-byte image of a valid
    header, ReadHeader returns OK and that header, the optional ranges as
    they were, and leaves the file at the first byte after the image and
    the offset unchanged. *)
Theorem ReadHeader_of_encoded_header
  (rd : Reader MemFile) (h h0 : BlobLogHeader) (rest : list byte) :
  file_ rd = mkMemFile (BlobLogHeader_EncodeTo h [] ++ rest) [] ->
  valid_header kMagicNumber h ->
  let '(s, h', rd') := ReadHeader kMagicNumber rd h0 in
  s = OK /\ h' = h /\
  file_ rd' = mkMemFile rest [] /\ next_byte_ rd' = next_byte_ rd.
Proof.
  intros Hfile Hv. unfold ReadHeader, read_to_scratch.
  rewrite Hfile, mem_Read_exact
    by (rewrite length_BlobLogHeader_EncodeTo; reflexivity).
  cbn [ok negb buffer_]. unfold BlobLogHeader_DecodeFrom, store_bytes.
  rewrite length_BlobLogHeader_EncodeTo.
  rewrite parse_header_encoded by exact Hv.
  repeat split.
Qed.

Lemma length_image_bytes (ri : RecordImage) :
  whole_record crc ri ->
  Z.of_nat (length (image_bytes ri))
  = 34 + Z.of_nat (length (ri_key ri)) + Z.of_nat (length (ri_blob ri)) + 8.
Proof.
  intros (Hh & Hf & _). unfold image_bytes.
  rewrite !length_app, Hh, Hf. lia.
Qed.

(** X10: on a file in memory that holds N whole records one after the
    other, N calls of ReadRecord on one reader, at any mix of levels and
    modes, all return OK, give the sequence numbers of the N footers in
    order, leave the file right after the last record, and advance the
    offset by the number of bytes the N records take. *)
Theorem scan_of_whole_records (recs : list RecordImage) :
  forall (calls : list (READ_LEVEL * WALRecoveryMode))
         (rd : Reader MemFile) (record : BlobLogRecord) (rest : list byte),
    length calls = length recs ->
    Forall (whole_record crc) recs ->
    file_ rd = mkMemFile (stream_of recs ++ rest) [] ->
    0 <= next_byte_ rd < 2 ^ 64 ->
    let '(out, rd') := scan crc rd record calls in
    map fst out = repeat OK (length recs) /\
    map (fun p => sn_ (snd p)) out
    = map (fun ri => DecodeFixed64 (ri_footer ri)) recs /\
    file_ rd' = mkMemFile rest [] /\
    next_byte_ rd'
    = wrap64 (next_byte_ rd + Z.of_nat (length (stream_of recs))).
Proof.
  induction recs as [|ri recs IH]; intros calls rd record rest Hlen Hwf
    Hfile Hrange.
  - destruct calls; [|discriminate]. cbn.
    rewrite Z.add_0_r, wrap64_small by exact Hrange.
    repeat split. exact Hfile.
  - destruct calls as [|[level mode] calls]; [discriminate|].
    inversion Hwf as [|x l Hri Hrecs]; subst.
    pose proof (length_image_bytes ri Hri) as Hbytes.
    destruct Hri as (Hh & Hf & Hc & Hk & Hb & Hsum).
    assert (Hfile' : file_ rd
              = mkMemFile (ri_header ri ++ ri_key ri ++ ri_blob ri
                           ++ ri_footer ri ++ (stream_of recs ++ rest)) []).
    { rewrite Hfile. unfold stream_of. cbn [map concat].
      unfold image_bytes. rewrite <- !app_assoc. reflexivity. }
    pose proof (ReadRecord_whole_record crc rd record level mode _ _ _ _ _
                  Hfile' Hh Hf Hc Hk Hb Hsum) as W.
    cbn [scan].
    destruct (ReadRecord crc rd record level mode) as [[s r'] rd1].
    destruct W as (Hs & _ & Hsn & _ & _ & Hfile1 & Hn1).
    assert (Hr1 : 0 <= next_byte_ rd1 < 2 ^ 64)
      by (rewrite Hn1; apply wrap64_range).
    specialize (IH calls rd1 r' rest ltac:(cbn in Hlen; lia) Hrecs Hfile1
                   Hr1).
    destruct (scan crc rd1 r' calls) as [out rd'].
    destruct IH as (I1 & I2 & I3 & I4).
    cbn [map fst snd length repeat]. rewrite I1, I2, Hs, Hsn.
    repeat split; [exact I3|].
    rewrite I4, Hn1, wrap64_add_l. f_equal.
    unfold stream_of in *. cbn [map concat]. rewrite length_app.
    lia.
Qed.

End WholeLog.

(** * The ranges of header and footer *)

(** X11: GetTTLRange and GetTimeRange have a defined result exactly when
    HasTTL, respectively HasTimestamp, holds; after setTTLRange the TTL
    range is present and read back as given while timestamp range, blob
    count and sequence-number range are as before, and likewise for
    setTimeRange; on the header setTTLGuess and setTSGuess each switch on
    their own presence query and leave the other one alone. *)
Theorem range_setters_and_getters
  (f : BlobLogFooter) (h : BlobLogHeader) (ttl : ttlrange_t)
  (ts : tsrange_t) :
  (GetTTLRange f = None <-> BlobLogFooter_HasTTL f = false) /\
  (GetTimeRange f = None <-> BlobLogFooter_HasTimestamp f = false) /\
  (GetTTLRange (setTTLRange ttl f) = Some ttl /\
   BlobLogFooter_HasTTL (setTTLRange ttl f) = true /\
   GetTimeRange (setTTLRange ttl f) = GetTimeRange f /\
   GetBlobCount (setTTLRange ttl f) = GetBlobCount f /\
   GetSNRange (setTTLRange ttl f) = GetSNRange f) /\
  (GetTimeRange (setTimeRange ts f) = Some ts /\
   BlobLogFooter_HasTimestamp (setTimeRange ts f) = true /\
   GetTTLRange (setTimeRange ts f) = GetTTLRange f /\
   GetBlobCount (setTimeRange ts f) = GetBlobCount f /\
   GetSNRange (setTimeRange ts f) = GetSNRange f) /\
  (BlobLogHeader_HasTTL (setTTLGuess ttl h) = true /\
   BlobLogHeader_HasTimestamp (setTTLGuess ttl h)
   = BlobLogHeader_HasTimestamp h) /\
  (BlobLogHeader_HasTimestamp (setTSGuess ts h) = true /\
   BlobLogHeader_HasTTL (setTSGuess ts h) = BlobLogHeader_HasTTL h).
Proof.
  unfold GetTTLRange, GetTimeRange, BlobLogFooter_HasTTL,
    BlobLogFooter_HasTimestamp.
  destruct f as [magic count [r1|] [r2|] sn]; cbn;
    repeat split; intros; try reflexivity; try discriminate.
Qed.

(** * Concrete runs of the further properties *)

Lemma header_read_failure_returned_witness :
  let '(s, r', rd') :=
    ReadRecord crc32c_Value (reader_on [] []) empty_record
               kReadLevelHdrFooterKeyBlob kAbsoluteConsistency in
  s = EndOfLog /\ r' = clear empty_record /\
  file_ rd' = mkMemFile [] [] /\
  next_byte_ rd' = wrap64 (next_byte_ (reader_on [] []) + 34).
Proof.
  apply (header_read_failure_returned crc32c_Value (reader_on [] [])
           empty_record kReadLevelHdrFooterKeyBlob kAbsoluteConsistency
           EndOfLog [] (mkMemFile [] [])).
  - vm_compute. reflexivity.
  - discriminate.
Defined.

Lemma offset_advances_whatever_the_body_status_witness :
  fst (fst (ReadRecord crc32c_Value (reader_on truncated_record [])
                       empty_record kReadLevelHdrFooterKeyBlob
                       kAbsoluteConsistency)) = EndOfLog /\
  (let '(s, r', rd') :=
     ReadRecord crc32c_Value (reader_on truncated_record []) empty_record
                kReadLevelHdrFooterKeyBlob kAbsoluteConsistency in
   key_size_ r' = hdr_key_size (firstn 34 truncated_record) /\
   blob_size_ r' = hdr_blob_size (firstn 34 truncated_record) /\
   next_byte_ rd'
   = wrap64 (next_byte_ (reader_on truncated_record [])
             + (34 + hdr_key_size (firstn 34 truncated_record)
                + hdr_blob_size (firstn 34 truncated_record) + 8))).
Proof.
  split; [vm_compute; reflexivity|].
  apply (offset_advances_whatever_the_body_status crc32c_Value
           (reader_on truncated_record []) empty_record
           kReadLevelHdrFooterKeyBlob kAbsoluteConsistency
           (firstn 34 truncated_record)
           (mkMemFile (skipn 34 truncated_record) []));
    vm_compute; reflexivity.
Defined.

Lemma header_footer_level_skips_the_body_witness :
  let stream := sample_record ++ second_record in
  let '(s, r', rd') :=
    ReadRecord crc32c_Value (reader_on stream [false; true]) empty_record
               kReadLevelHdrFooter kAbsoluteConsistency in
  s = OK /\ file_ rd' = mkMemFile (skipn 42 stream) [] /\
  key_ r' = [] /\ blob_ r' = [] /\
  kbs_ r' = kbs_ empty_record /\ bbs_ r' = bbs_ empty_record.
Proof.
  cbv zeta.
  apply (header_footer_level_skips_the_body crc32c_Value
           (reader_on (sample_record ++ second_record) [false; true])
           empty_record kAbsoluteConsistency
           (firstn 34 sample_record)
           (firstn 8 (skipn 34 (sample_record ++ second_record)))
           (mkMemFile (skipn 34 (sample_record ++ second_record)) [true])
           (mkMemFile (skipn 34 (sample_record ++ second_record)) [])
           (mkMemFile (skipn 42 (sample_record ++ second_record)) [])
           IoError OK);
    vm_compute; reflexivity.
Defined.

Lemma key_level_reads_key_and_skips_blob_witness :
  let stream := sample_record ++ second_record in
  let '(s, r', rd') :=
    ReadRecord crc32c_Value (reader_on stream []) empty_record
               kReadLevelHdrFooterKey kAbsoluteConsistency in
  s = OK /\ file_ rd' = mkMemFile second_record [] /\
  key_ r' = sample_key /\ blob_ r' = [] /\
  kbs_ r' = Z.max (kbs_ empty_record) (hdr_key_size (firstn 34 sample_record))
  /\ bbs_ r' = bbs_ empty_record.
Proof.
  cbv zeta.
  apply (key_level_reads_key_and_skips_blob crc32c_Value
           (reader_on (sample_record ++ second_record) [])
           empty_record kAbsoluteConsistency
           (firstn 34 sample_record) sample_key (EncodeFixed64 42)
           (mkMemFile (skipn 34 (sample_record ++ second_record)) [])
           (mkMemFile (skipn 37 (sample_record ++ second_record)) [])
           (mkMemFile (skipn 42 (sample_record ++ second_record)) [])
           (mkMemFile second_record [])
           OK OK OK);
    vm_compute; reflexivity.
Defined.

Lemma sn_is_decode_of_footer_slice_witness :
  let run :=
    ReadRecord crc32c_Value (reader_on (sample_record ++ second_record) [])
               empty_record kReadLevelHdrFooter kAbsoluteConsistency in
  sn_ (snd (fst run)) = DecodeFixed64 (Slice_bytes (buffer_ (snd run))) /\
  DecodeFixed64 (Slice_bytes (buffer_ (snd run))) = 42.
Proof.
  cbv zeta. split; [|vm_compute; reflexivity].
  apply (sn_is_decode_of_footer_slice crc32c_Value
           (reader_on (sample_record ++ second_record) [])
           empty_record kReadLevelHdrFooter kAbsoluteConsistency
           (firstn 34 sample_record)
           (mkMemFile (skipn 34 (sample_record ++ second_record)) [])
           (fst (fst (ReadRecord crc32c_Value
                        (reader_on (sample_record ++ second_record) [])
                        empty_record kReadLevelHdrFooter
                        kAbsoluteConsistency))));
    vm_compute; reflexivity.
Defined.

Lemma ReadHeader_read_failure_returned_witness :
  let '(s, h', rd') :=
    ReadHeader sample_magic
      (reader_on (BlobLogHeader_EncodeTo sample_header []) [true])
      blank_header in
  s = IoError /\ h' = blank_header /\
  file_ rd' = mkMemFile (BlobLogHeader_EncodeTo sample_header []) [] /\
  next_byte_ rd'
  = next_byte_ (reader_on (BlobLogHeader_EncodeTo sample_header []) [true]).
Proof.
  apply (ReadHeader_read_failure_returned sample_magic
           (reader_on (BlobLogHeader_EncodeTo sample_header []) [true])
           blank_header IoError []
           (mkMemFile (BlobLogHeader_EncodeTo sample_header []) [])).
  - vm_compute. reflexivity.
  - discriminate.
Defined.

Lemma ReadHeader_OK_inv_witness :
  exists bytes f1,
    Read BlobLogHeader_kHeaderSize
         (file_ (reader_on (BlobLogHeader_EncodeTo sample_header []
                            ++ sample_record) []))
    = (OK, bytes, f1) /\
    (32 <= length bytes)%nat /\
    DecodeFixed32 bytes = sample_magic /\
    h_magic_number_ sample_header = sample_magic /\
    file_ (snd (ReadHeader sample_magic
                  (reader_on (BlobLogHeader_EncodeTo sample_header []
                              ++ sample_record) [])
                  blank_header)) = f1 /\
    size_ (buffer_ (snd (ReadHeader sample_magic
                           (reader_on (BlobLogHeader_EncodeTo sample_header []
                                       ++ sample_record) [])
                           blank_header)))
    = (length bytes - 32)%nat.
Proof.
  apply (ReadHeader_OK_inv sample_magic
           (reader_on (BlobLogHeader_EncodeTo sample_header []
                       ++ sample_record) [])
           blank_header sample_header).
  vm_compute. reflexivity.
Defined.

Lemma ReadHeader_of_encoded_header_witness :
  let '(s, h', rd') :=
    ReadHeader sample_magic
      (reader_on (BlobLogHeader_EncodeTo sample_header [] ++ sample_record)
                 [])
      blank_header in
  s = OK /\ h' = sample_header /\
  file_ rd' = mkMemFile sample_record [] /\
  next_byte_ rd'
  = next_byte_ (reader_on (BlobLogHeader_EncodeTo sample_header []
                           ++ sample_record) []).
Proof.
  apply (ReadHeader_of_encoded_header sample_magic
           (reader_on (BlobLogHeader_EncodeTo sample_header []
                       ++ sample_record) [])
           sample_header blank_header sample_record).
  - reflexivity.
  - unfold valid_header, fits32, fits64, sample_header, sample_magic.
    cbn. lia.
Defined.

Lemma scan_of_whole_records_witness :
  let '(out, rd') :=
    scan crc32c_Value (reader_on (sample_record ++ second_record) [])
         empty_record
         [(kReadLevelHdrFooterKey, kAbsoluteConsistency);
          (kReadLevelHdrFooterKeyBlob, kTolerateCorruptedTailRecords)] in
  map fst out = repeat OK (length [sample_image; second_image]) /\
  map (fun p => sn_ (snd p)) out
  = map (fun ri => DecodeFixed64 (ri_footer ri))
        [sample_image; second_image] /\
  file_ rd' = mkMemFile [] [] /\
  next_byte_ rd'
  = wrap64 (next_byte_ (reader_on (sample_record ++ second_record) [])
            + Z.of_nat (length (stream_of [sample_image; second_image]))).
Proof.
  apply (scan_of_whole_records crc32c_Value [sample_image; second_image]
           [(kReadLevelHdrFooterKey, kAbsoluteConsistency);
            (kReadLevelHdrFooterKeyBlob, kTolerateCorruptedTailRecords)]
           (reader_on (sample_record ++ second_record) [])
           empty_record []).
  - reflexivity.
  - apply Forall_cons; [|apply Forall_cons; [|apply Forall_nil]];
      unfold whole_record; repeat split; vm_compute; reflexivity.
  - vm_compute. reflexivity.
  - cbn. lia.
Defined.
